(** * apollo-passport-mongodb: the MongoDbDriver adapter

    A shallow embedding of [src/index.js] (class [MongoDbDriver]) together
    with the part of the MongoDB document store the adapter talks to
    ([findOne], [find().toArray()], [insertOne], [updateOne] with the
    [$set], [$unset], [$currentDate] and [$push] modifiers).

    - JavaScript values are the inductive type [value]; a JS object and a
      BSON document are a [gmap string value], so that equality of objects
      is deep equality and does not depend on the order of the keys.
    - An [async] method is a program of type [prog]: a tree of the effects
      the method performs, in the order the source performs them
      ([await this._ready()], written [await ready], a round trip to a
      collection, [new Date()], [new ObjectId]).  [run] executes a program
      on a [machine] (driver instance, database, clocks) until it settles
      or suspends on the readiness gate.
    - [VNum] stands for the integer-valued numbers.
    - A read [o[k]] with a computed key goes through the prototype of a
      plain object: a key that [o] does not hold itself and that names a
      member of [Object.prototype] reads as that built-in ([reading]).
      Where a method writes to such a built-in the model stops
      ([Escape]): it does not hold the objects of the engine.
    - Parameters are typed as the JSDoc of the source types them: ids,
      e-mail addresses, service names and field names are strings, the
      optional [data] of [assertUserEmailData] is an [option obj].
    - In the source the primary key of a record is the field [_id]. *)

From Stdlib Require Import ZArith String Ascii DecimalString DecimalZ.
From stdpp Require Import gmap strings list fin_maps.

Set Warnings "-register-all".
Set Default Proof Using "Type".

Local Open Scope string_scope.

(** ** JavaScript values *)

Inductive value :=
| VUndefined
| VNull
| VBool (b : bool)
| VNum (n : Z)
| VStr (s : string)
| VDate (ms : Z)
| VArr (l : list value)
| VObj (o : gmap string value).

Abbreviation obj := (gmap string value).

#[global] Instance value_eq_dec : EqDecision value.
Proof.
  refine (fix go (x y : value) {struct x} : Decision (x = y) :=
    let _ : EqDecision value := go in
    match x, y with
    | VUndefined, VUndefined => left _
    | VNull, VNull => left _
    | VBool a, VBool b => cast_if (decide (a = b))
    | VNum a, VNum b => cast_if (decide (a = b))
    | VStr a, VStr b => cast_if (decide (a = b))
    | VDate a, VDate b => cast_if (decide (a = b))
    | VArr a, VArr b => cast_if (decide (a = b))
    | VObj a, VObj b => cast_if (decide (a = b))
    | _, _ => right _
    end); congruence.
Defined.

Inductive error :=
| TypeError (msg : string)
| MongoError (msg : string).

(** [ToBoolean]: what [if (x)], [!x] and [x || y] test. *)
Definition truthy (v : value) : bool :=
  match v with
  | VUndefined | VNull => false
  | VBool b => b
  | VNum n => negb (n =? 0)%Z
  | VStr s => negb (String.eqb s EmptyString)
  | VDate _ | VArr _ | VObj _ => true
  end.

(** [a || b] *)
Definition js_or (a b : value) : value := if truthy a then a else b.

(** [o.k] for one of the names the adapter reads by name ([_id], [type],
    [emails], [services], [value], [result], [ok]); none of them is a
    member of [Object.prototype], so a missing property reads as
    [undefined]. *)
Definition prop (o : obj) (k : string) : value := default VUndefined (o !! k).

(** [v.k]: reading a property of [null] or [undefined] throws; the
    primitives have no own property of the names read by the adapter. *)
Definition getprop (v : value) (k : string) : error + value :=
  match v with
  | VUndefined => inl (TypeError "Cannot read property of undefined")
  | VNull => inl (TypeError "Cannot read property of null")
  | VObj o => inr (prop o k)
  | _ => inr VUndefined
  end.

(** The members of [Object.prototype], which every plain object
    inherits. *)
Definition Object_prototype : list string :=
  ["constructor"; "__defineGetter__"; "__defineSetter__"; "hasOwnProperty";
   "__lookupGetter__"; "__lookupSetter__"; "isPrototypeOf";
   "propertyIsEnumerable"; "toString"; "valueOf"; "__proto__";
   "toLocaleString"].

Definition inherited (k : string) : bool := bool_decide (k ∈ Object_prototype).

(** What [v[k]] gives for a computed key [k]: a value of the data, the
    member [name] of [Object.prototype] (a built-in function, or the
    prototype itself for [__proto__]), or a property of a string, number,
    boolean, date or array, which depends on the prototypes of the engine
    and is left open. *)
Inductive reading :=
| Data (v : value)
| Builtin (name : string)
| Boxed.

(** [o[k]] on a truthy [o]: an object is read through its prototype. *)
Definition member (v : value) (k : string) : reading :=
  match v with
  | VObj o =>
      match o !! k with
      | Some w => Data w
      | None => if inherited k then Builtin k else Data VUndefined
      end
  | _ => Boxed
  end.

(** [{ ...data }] for an optional object: spreading [undefined] adds
    nothing. *)
Definition spread (data : option obj) : obj := default ∅ data.

(** [String(n)] for an integer, and the inverse reading Mongo applies to a
    path component that addresses an array position. *)
Definition index_to_string (z : Z) : string :=
  NilZero.string_of_int (Z.to_int z).

Definition is_index (k : string) : option nat :=
  match NilZero.int_of_string k with
  | Some (Decimal.Pos d) =>
      let z := Z.of_uint d in
      if decide (index_to_string z = k) then Some (Z.to_nat z) else None
  | _ => None
  end.

(** ** Dotted paths *)

Abbreviation path := (list string).

Definition dot : ascii := "."%char.

(** [s.split('.')] *)
Fixpoint split_dots (s : string) : path :=
  match s with
  | EmptyString => [EmptyString]
  | String a rest =>
      if Ascii.eqb a dot then EmptyString :: split_dots rest
      else match split_dots rest with
           | hd :: tl => String a hd :: tl
           | [] => [String a EmptyString]
           end
  end.

Fixpoint dotfree (s : string) : bool :=
  match s with
  | EmptyString => true
  | String a rest => negb (Ascii.eqb a dot) && dotfree rest
  end.

(** A field name that names exactly one top-level field. *)
Definition valid_key (k : string) : bool :=
  negb (String.eqb k EmptyString) && dotfree k.

Fixpoint is_prefix (p q : path) : bool :=
  match p, q with
  | [], _ => true
  | _ :: _, [] => false
  | a :: p', b :: q' => bool_decide (a = b) && is_prefix p' q'
  end.

(** ** The document store *)

(** Filters: [{ field: "v" }] and [{ $or: [q1, q2] }]. *)
Inductive query :=
| QEq (field : string) (v : string)
| QOr (q1 q2 : query).

(** The values a dotted path reaches in a document.  An object is entered
    by field name; an array is entered by position when the component is
    an index, and otherwise the component is looked up in each element
    that is an object (one level of arrays only). *)
Fixpoint resolve (p : path) (v : value) : list value :=
  match p with
  | [] => [v]
  | k :: p' =>
      match v with
      | VObj o =>
          match o !! k with Some w => resolve p' w | None => [] end
      | VArr l =>
          match is_index k with
          | Some i =>
              match l !! i with Some w => resolve p' w | None => [] end
          | None => []
          end ++
          flat_map (fun e =>
            match e with
            | VObj o =>
                match o !! k with Some w => resolve p' w | None => [] end
            | _ => []
            end) l
      | _ => []
      end
  end.

(** Equality match of a reached value against a string: the value is that
    string, or an array that contains it. *)
Definition leaf_matches (s : string) (w : value) : bool :=
  match w with
  | VStr t => bool_decide (t = s)
  | VArr l => bool_decide (VStr s ∈ l)
  | _ => false
  end.

Fixpoint matches (q : query) (d : obj) : bool :=
  match q with
  | QEq field s => existsb (leaf_matches s) (resolve (split_dots field) (VObj d))
  | QOr q1 q2 => matches q1 d || matches q2 d
  end.

(** [findOne]: the first document, in the collection's order, that
    satisfies the filter, with its position. *)
Definition findOne (q : query) (coll : list obj) : option (nat * obj) :=
  list_find (fun d => matches q d = true) coll.

(** Update modifiers; the keys of each are dotted paths. *)
Record update := Update {
  upd_set : obj;
  upd_unset : obj;
  upd_currentDate : obj;
  upd_push : obj
}.

(** [$set] of one path.  Missing intermediate fields are created as
    embedded documents; an array is written by position (padded with
    [null] when the position is past its end); a field cannot be created
    inside a scalar or under a non-index name inside an array. *)
Fixpoint set_path (p : path) (x : value) (v : value) : option value :=
  match p with
  | [] => Some x
  | k :: p' =>
      match v with
      | VObj o =>
          c ← set_path p' x (default (VObj ∅) (o !! k));
          Some (VObj (<[k:=c]> o))
      | VArr l =>
          match is_index k with
          | Some i =>
              c ← set_path p' x (default (VObj ∅) (l !! i));
              Some (VArr (if decide (i < length l) then <[i:=c]> l
                          else l ++ replicate (i - length l) VNull ++ [c]))
          | None => None
          end
      | _ => None
      end
  end.

(** [$unset] of one path: removes a field of an object, writes [null] at
    an array position, and does nothing where the path does not lead. *)
Fixpoint unset_path (p : path) (v : value) : option value :=
  match p with
  | [] => Some v
  | [k] =>
      match v with
      | VObj o => Some (VObj (delete k o))
      | VArr l =>
          match is_index k with
          | Some i => Some (VArr (if decide (i < length l) then <[i:=VNull]> l else l))
          | None => Some v
          end
      | _ => Some v
      end
  | k :: p' =>
      match v with
      | VObj o =>
          match o !! k with
          | Some w => c ← unset_path p' w; Some (VObj (<[k:=c]> o))
          | None => Some v
          end
      | VArr l =>
          match is_index k with
          | Some i =>
              match l !! i with
              | Some w => c ← unset_path p' w; Some (VArr (<[i:=c]> l))
              | None => Some v
              end
          | None => Some v
          end
      | _ => Some v
      end
  end.

(** [$push] of one path: appends to the array there, creates the array
    when the field is missing, and fails on anything else. *)
Fixpoint push_path (p : path) (x : value) (v : value) : option value :=
  match p with
  | [] =>
      match v with
      | VArr l => Some (VArr (l ++ [x]))
      | _ => None
      end
  | k :: p' =>
      match v with
      | VObj o =>
          match o !! k with
          | Some w => c ← push_path p' x w; Some (VObj (<[k:=c]> o))
          | None => c ← set_path p' (VArr [x]) (VObj ∅); Some (VObj (<[k:=c]> o))
          end
      | VArr l =>
          match is_index k with
          | Some i =>
              match l !! i with
              | Some w => c ← push_path p' x w; Some (VArr (<[i:=c]> l))
              | None => None
              end
          | None => None
          end
      | _ => None
      end
  end.

(** One modifier applied at each of its paths. *)
Definition fold_paths (f : path → value → value → option value)
    (op : obj) (v : value) : option value :=
  foldr (fun kx acc => acc ≫= f (split_dots kx.1) kx.2) (Some v) (map_to_list op).

(** Two paths conflict when one is a prefix of the other; an update whose
    modifiers name conflicting paths, or a path with an empty component,
    is rejected. *)
Fixpoint conflict_free (ps : list path) : bool :=
  match ps with
  | [] => true
  | p :: rest =>
      forallb (fun q => negb (is_prefix p q) && negb (is_prefix q p)) rest
      && conflict_free rest
  end.

Definition update_paths (u : update) : list path :=
  (split_dots <$> (map_to_list (upd_set u)).*1) ++
  (split_dots <$> (map_to_list (upd_unset u)).*1) ++
  (split_dots <$> (map_to_list (upd_currentDate u)).*1) ++
  (split_dots <$> (map_to_list (upd_push u)).*1).

Definition valid_paths (ps : list path) : bool :=
  forallb (forallb (fun k => negb (String.eqb k EmptyString))) ps.

(** The document an update produces from [d] when the store's clock reads
    [now]; [None] is a write error.  The primary key is immutable.  A
    modifier without keys does nothing. *)
Definition apply_update (now : Z) (u : update) (d : obj) : option obj :=
  if valid_paths (update_paths u) && conflict_free (update_paths u) then
    v1 ← fold_paths set_path (upd_set u) (VObj d);
    v2 ← fold_paths (fun p _ => unset_path p) (upd_unset u) v1;
    v3 ← fold_paths (fun p _ => set_path p (VDate now)) (upd_currentDate u) v2;
    r ← fold_paths push_path (upd_push u) v3;
    match r with
    | VObj d' => if decide (d' !! "_id" = d !! "_id") then Some d' else None
    | _ => None
    end
  else None.

(** Requests to one collection, and the store's state. *)
Inductive call :=
| FindOne (q : query)
| FindAll
| InsertOne (d : obj)
| UpdateOne (q : query) (u : update).

(** The database handed to the constructor: its collections by name (a
    collection that was never written is empty), and the two sources of
    values the adapter does not control: the readings of the clock, in the
    order they are taken, and the identifiers [new ObjectId] hands out. *)
Record world := World {
  colls : gmap string (list obj);
  clock : nat → Z;
  ticks : nat;
  objectIds : nat → string;
  issued : nat
}.

Definition collection (w : world) (name : string) : list obj :=
  default [] (colls w !! name).

Definition set_collection (name : string) (c : list obj) (w : world) : world :=
  World (<[name:=c]> (colls w)) (clock w) (ticks w) (objectIds w) (issued w).

Definition now (w : world) : Z := clock w (ticks w).

Definition tick (w : world) : world :=
  World (colls w) (clock w) (S (ticks w)) (objectIds w) (issued w).

Definition fresh_id (w : world) : string := objectIds w (issued w).

Definition issue (w : world) : world :=
  World (colls w) (clock w) (ticks w) (objectIds w) (S (issued w)).

(** The acknowledgement of a write: [{ result: { ok: 1, n } }]. *)
Definition write_result (n : Z) : value :=
  VObj {[ "result" := VObj (<["n" := VNum n]> {[ "ok" := VNum 1 ]}) ]}.

(** One round trip.  [insertOne] appends, and is refused when the primary
    key is already taken; a document without a primary key would be given
    one by the client library (the adapter never sends one).  [updateOne]
    rewrites the first document the filter selects, in place, reading the
    clock once, and does nothing when the filter selects none. *)
Definition perform (name : string) (c : call) (w : world) : (error + value) * world :=
  let coll := collection w name in
  match c with
  | FindOne q =>
      (inr (match findOne q coll with Some (_, d) => VObj d | None => VNull end), w)
  | FindAll => (inr (VArr (VObj <$> coll)), w)
  | InsertOne d =>
      match d !! "_id" with
      | Some key =>
          if existsb (fun e => bool_decide (e !! "_id" = Some key)) coll
          then (inl (MongoError "E11000 duplicate key error"), w)
          else (inr (write_result 1), set_collection name (coll ++ [d]) w)
      | None =>
          (inr (write_result 1),
           set_collection name (coll ++ [<["_id" := VStr (fresh_id w)]> d]) (issue w))
      end
  | UpdateOne q u =>
      match findOne q coll with
      | Some (i, d) =>
          match apply_update (now w) u d with
          | Some d' =>
              (inr (write_result 1),
               set_collection name (<[i:=d']> coll) (tick w))
          | None => (inl (MongoError "write error"), tick w)
          end
      | None => (inr (write_result 0), w)
      end
  end.

(** ** Asynchronous methods as programs *)

(** [this.users] and [this.config] *)
Inductive handle := Users | Config.

(** [Escape]: the method writes onto a built-in object of the engine, or
    converts a value to a key in a way the model does not follow; the
    model holds neither and stops there. *)
Inductive prog :=
| Ret (v : value)
| Throw (e : error)
| AwaitReady (k : prog)
| Store (h : handle) (c : call) (k : value → prog)
| NewDate (k : Z → prog)
| NewObjectId (k : string → prog)
| Escape.

Declare Scope prog_scope.
Delimit Scope prog_scope with prog.
Bind Scope prog_scope with prog.

Notation "'await' 'ready' ;; k" := (AwaitReady k)
  (at level 10, k at level 200, only parsing) : prog_scope.
Notation "'await' h '.[' c ']' 'as' x ;; k" := (Store h c (fun x => k))
  (at level 10, h at level 0, c at level 200, x name, k at level 200,
   only parsing) : prog_scope.
Notation "'await' h '.[' c ']' ;; k" := (Store h c (fun _ => k))
  (at level 10, h at level 0, c at level 200, k at level 200,
   only parsing) : prog_scope.

(** A pure step that may throw. *)
Definition try (r : error + value) (k : value → prog) : prog :=
  match r with
  | inl e => Throw e
  | inr v => k v
  end.

(** ** The driver instance *)

Record MongoDbDriver := Driver {
  userTableName : string;
  configTableName : string;
  dbName : option string;
  readySubs : list nat;
  initted : bool;
  users : option string;
  config : option string
}.

Record options := Options {
  opt_userTableName : option string;
  opt_configTableName : option string;
  opt_dbName : option string;
  opt_init : option bool
}.

Inductive event :=
| EvStore (h : handle) (c : call).

(** The driver together with what surrounds it: the database, the gate
    promises created so far (a promise is its number), those whose
    [resolve] has been called, in the order of the calls, and the requests
    sent to the store, oldest first. *)
Record machine := Machine {
  drv : MongoDbDriver;
  wld : world;
  nextPromise : nat;
  resolved : list nat;
  log : list event
}.

Definition with_world (w : world) (m : machine) : machine :=
  Machine (drv m) w (nextPromise m) (resolved m) (log m).

Definition with_log (l : list event) (m : machine) : machine :=
  Machine (drv m) (wld m) (nextPromise m) (resolved m) l.

(** [while (this.readySubs.length) this.readySubs.shift().call()]: the
    queue that is left and the promises resolved so far. *)
Fixpoint release (subs : list nat) (done : list nat) : list nat * list nat :=
  match subs with
  | [] => ([], done)
  | r :: rest => release rest (done ++ [r])
  end.

(** [_init()]: it contains no [await], so it runs to its end within the
    call. *)
Definition _init (m : machine) : machine :=
  let d := drv m in
  let '(subs, done) := release (readySubs d) (resolved m) in
  Machine
    (Driver (userTableName d) (configTableName d) (dbName d) subs true
            (Some (userTableName d)) (Some (configTableName d)))
    (wld m) (nextPromise m) done (log m).

(** [_ready()]: the new promise, resolved at once or queued. *)
Definition _ready (m : machine) : nat * machine :=
  let d := drv m in
  let p := nextPromise m in
  if initted d then
    (p, Machine d (wld m) (S p) (resolved m ++ [p]) (log m))
  else
    (p, Machine
          (Driver (userTableName d) (configTableName d) (dbName d)
                  (readySubs d ++ [p]) (initted d) (users d) (config d))
          (wld m) (S p) (resolved m) (log m)).

(** [options.x || fallback] for an optional string. *)
Definition or_default (o : option string) (fallback : string) : string :=
  match o with
  | Some s => if String.eqb s EmptyString then fallback else s
  | None => fallback
  end.

(** [new MongoDbDriver(db, options)] *)
Definition constructor (db : world) (o : options) : machine :=
  let m :=
    Machine
      (Driver (or_default (opt_userTableName o) "users")
              (or_default (opt_configTableName o) "apolloPassportConfig")
              (opt_dbName o) [] false None None)
      db 0 [] [] in
  match opt_init o with
  | Some false => m
  | _ => _init m
  end.

Definition no_options : options := Options None None None None.

(** ** Running a method *)

Inductive outcome :=
| Resolved (v : value)
| Rejected (e : error)
| Awaiting (p : nat) (k : prog)
| Escaped.

Definition handle_of (h : handle) (d : MongoDbDriver) : option string :=
  match h with
  | Users => users d
  | Config => config d
  end.

(** Runs a method until its promise settles or it suspends on a gate
    promise that is still pending.  [Escaped]: the method has reached
    [Escape]; whether it then throws, and what later reads of the
    built-in see, is outside the model. *)
Fixpoint run (c : prog) (m : machine) : outcome * machine :=
  match c with
  | Ret v => (Resolved v, m)
  | Throw e => (Rejected e, m)
  | AwaitReady k =>
      let '(p, m') := _ready m in
      if initted (drv m) then run k m' else (Awaiting p k, m')
  | Store h c k =>
      match handle_of h (drv m) with
      | None => (Rejected (TypeError "Cannot read property of undefined"), m)
      | Some name =>
          let '(r, w') := perform name c (wld m) in
          let m' := with_log (log m ++ [EvStore h c]) (with_world w' m) in
          match r with
          | inl e => (Rejected e, m')
          | inr v => run (k v) m'
          end
      end
  | NewDate k => run (k (now (wld m))) (with_world (tick (wld m)) m)
  | NewObjectId k => run (k (fresh_id (wld m))) (with_world (issue (wld m)) m)
  | Escape => (Escaped, m)
  end.

(** A suspended method continues once its gate promise is resolved. *)
Definition resume (o : outcome) (m : machine) : outcome * machine :=
  match o with
  | Awaiting p k => if decide (p ∈ resolved m) then run k m else (o, m)
  | _ => (o, m)
  end.

(** ** The methods of [MongoDbDriver] *)

Definition currentDate_dateUpdated : obj := {[ "dateUpdated" := VBool true ]}.

(** [{ _id: userId }] *)
Definition by_id (userId : string) : query := QEq "_id" userId.

(** [{ 'emails.value': email }] *)
Definition by_email (email : string) : query := QEq "emails.value" email.

(** [{ $or: [{ ['services.' + service + '.id']: id }, { 'emails.value': email }] }] *)
Definition by_service_id_or_email (service id email : string) : query :=
  QOr (QEq ("services." ++ service ++ ".id") id) (by_email email).

Section Config.

(** [String(date)], which depends on the engine's time zone. *)
Variable dateToString : Z → string.

(** The property key a value is converted to in [o[v]], where the model
    follows the conversion: a number below [1e21] in magnitude is printed
    with all its digits (from there on the engine prints an exponent), an
    array joins its elements, and an object is [[object Object]] unless
    it holds a [toString] of its own, which the conversion would call. *)
Fixpoint to_key (v : value) : option string :=
  match v with
  | VUndefined => Some "undefined"
  | VNull => Some "null"
  | VBool true => Some "true"
  | VBool false => Some "false"
  | VNum n =>
      if (Z.abs n <? 10 ^ 21)%Z then Some (index_to_string n) else None
  | VStr s => Some s
  | VDate ms => Some (dateToString ms)
  | VArr l =>
      String.concat "," <$>
        (fix join (l : list value) : option (list string) :=
           match l with
           | [] => Some []
           | e :: rest =>
               match
                 match e with
                 | VUndefined | VNull => Some EmptyString
                 | _ => to_key e
                 end, join rest
               with
               | Some k, Some ks => Some (k :: ks)
               | _, _ => None
               end
           end) l
  | VObj o =>
      match o !! "toString" with
      | None => Some "[object Object]"
      | Some _ => None
      end
  end.

(** The body of the [forEach] in [fetchConfig], for a document [row] of
    the collection.  [out[row.type]] is read through the prototype: when
    [out] holds no entry for the key and the key names a member of
    [Object.prototype], the test finds that built-in, no entry is
    created, and the row is written onto the built-in.  The assignment
    to the key [__proto__] of an entry sets the entry's prototype.
    Neither is followed ([None]); elsewhere the row becomes an own
    property of the entry of its type. *)
Definition file_row (out : gmap string obj) (row : value)
    : option (gmap string obj) :=
  match row with
  | VObj r =>
      match to_key (prop r "type"), to_key (prop r "_id") with
      | Some t, Some i =>
          if String.eqb i "__proto__" then None
          else
            match out !! t with
            | Some slot => Some (<[t := <[i := row]> slot]> out)
            | None =>
                if inherited t then None
                else Some (<[t := {[ i := row ]}]> out)
            end
      | _, _ => None
      end
  | _ => None
  end.

Fixpoint file_rows (out : gmap string obj) (rows : list value)
    : option (gmap string obj) :=
  match rows with
  | [] => Some out
  | row :: rest =>
      match file_row out row with
      | None => None
      | Some out' => file_rows out' rest
      end
  end.

(** A document that [fetchConfig] files as data: the model follows the
    conversion of its [type] and of its [_id] to keys, the key of the
    type names no member of [Object.prototype], and the key of the [_id]
    is not [__proto__]. *)
Definition plain_row (r : obj) : bool :=
  match to_key (prop r "type"), to_key (prop r "_id") with
  | Some t, Some i => negb (inherited t) && negb (String.eqb i "__proto__")
  | _, _ => false
  end.

(** [fetchConfig()] (index.js, lines 78-92) *)
Definition fetchConfig : prog :=
  (await ready ;;
   await Config.[FindAll] as results ;;
   match results with
   | VArr rows =>
       match file_rows ∅ rows with
       | None => Escape
       | Some out => Ret (VObj (VObj <$> out))
       end
   | _ => Throw (TypeError "results.forEach is not a function")
   end)%prog.

End Config.

(** [{ type, _id, ...value }]: the fields of [value] come last and win. *)
Definition config_row (type _id : string) (value : obj) : obj :=
  value ∪ <["_id" := VStr _id]> {[ "type" := VStr type ]}.

(** [setConfigKey(type, _id, value)] (lines 103-106) *)
Definition setConfigKey (type _id : string) (value : obj) : prog :=
  (await ready ;;
   await Config.[InsertOne (config_row type _id value)] ;;
   Ret VUndefined)%prog.

(** [createUser(user)] (lines 130-144): a falsy [_id] is replaced by a
    fresh identifier, then the three dates are stamped from the client's
    clock and the record is inserted. *)
Definition createUser (user : obj) : prog :=
  (await ready ;;
   let stamp (user : obj) : prog :=
     NewDate (fun updated =>
     NewDate (fun added =>
     NewDate (fun registered =>
       let user :=
         <["dateRegistered" := VDate registered]>
           (<["dateAdded" := VDate added]>
              (<["dateUpdated" := VDate updated]> user)) in
       let id := prop user "_id" in
       await Users.[InsertOne user] ;;
       Ret id))) in
   if negb (truthy (prop user "_id"))
   then NewObjectId (fun oid => stamp (<["_id" := VStr oid]> user))
   else stamp user)%prog.

(** [updateUser(userId, updatedUser)] (lines 146-154) *)
Definition updateUser (userId : string) (updatedUser : obj) : prog :=
  (await ready ;;
   await Users.[UpdateOne (by_id userId)
                  (Update updatedUser ∅ currentDate_dateUpdated ∅)] as result ;;
   try (getprop result "result") (fun r => try (getprop r "ok") Ret))%prog.

(** [fetchUserById(userId)] (lines 165-168): the result of [findOne] is
    returned as it is. *)
Definition fetchUserById (userId : string) : prog :=
  (await ready ;;
   await Users.[FindOne (by_id userId)] as found ;;
   Ret found)%prog.

(** [fetchUserByEmail(email)] (lines 179-185) *)
Definition fetchUserByEmail (email : string) : prog :=
  (await ready ;;
   await Users.[FindOne (by_email email)] as results ;;
   Ret (js_or results VNull))%prog.

(** [fetchUserByServiceIdOrEmail(service, id, email)] (lines 198-204) *)
Definition fetchUserByServiceIdOrEmail (service id email : string) : prog :=
  (await ready ;;
   await Users.[FindOne (by_service_id_or_email service id email)] as results ;;
   Ret (js_or results VNull))%prog.

(** The three modifiers of the one [updateOne] of [verifyUserAccount]. *)
Definition verify_update (verifiedField tokenField tokenExpirationField : string)
    : update :=
  Update {[ verifiedField := VBool true ]}
         (<[tokenExpirationField := VStr EmptyString]>
            {[ tokenField := VStr EmptyString ]})
         currentDate_dateUpdated
         ∅.

(** [verifyUserAccount(userId, verifiedField, tokenField,
    tokenExpirationField)] (lines 215-232); an argument left out is
    [None] and takes the default of the source.  The record read first is
    not used. *)
Definition verifyUserAccount (userId : string)
    (verifiedField tokenField tokenExpirationField : option string) : prog :=
  let verifiedField := default "verified" verifiedField in
  let tokenField := default "verificationToken" tokenField in
  let tokenExpirationField :=
    default "verificationTokenExpiration" tokenExpirationField in
  (await ready ;;
   await Users.[FindOne (by_id userId)] ;;
   await Users.[UpdateOne (by_id userId)
                  (verify_update verifiedField tokenField tokenExpirationField)] ;;
   Ret VUndefined)%prog.

(** The modifiers of [addResetPasswordToken]: the keys of [$unset] are the
    two names written in the source, [verificationToken] and
    [tokenExpirationField]. *)
Definition reset_update (token tokenExpiration : value)
    (tokenField tokenExpirationField : string) : update :=
  Update (<[tokenExpirationField := tokenExpiration]> {[ tokenField := token ]})
         (<["tokenExpirationField" := VStr EmptyString]>
            {[ "verificationToken" := VStr EmptyString ]})
         currentDate_dateUpdated
         ∅.

(** [addResetPasswordToken(userId, token, tokenExpiration, tokenField,
    tokenExpirationField)] (lines 234-257): the body is the [updateOne]
    alone. *)
Definition addResetPasswordToken (userId : string) (token tokenExpiration : value)
    (tokenField tokenExpirationField : option string) : prog :=
  let tokenField := default "resetPassToken" tokenField in
  let tokenExpirationField :=
    default "resetPassTokenExpiration" tokenExpirationField in
  (await Users.[UpdateOne (by_id userId)
                  (reset_update token tokenExpiration tokenField tokenExpirationField)] ;;
   Ret VUndefined)%prog.

(** [emails.find((e) => e.value === email)], with the position of the
    entry found.  The callback throws on an entry that is [null]. *)
Fixpoint find_email (email : string) (emails : list value) (i : nat)
    : error + option (nat * value) :=
  match emails with
  | [] => inr None
  | e :: rest =>
      match getprop e "value" with
      | inl err => inl err
      | inr v =>
          if decide (v = VStr email) then inr (Some (i, e))
          else find_email email rest (S i)
      end
  end.

(** [{ ...v }] for a value: an object contributes its fields, [undefined]
    contributes nothing. *)
Definition spread_value (v : value) : obj :=
  match v with
  | VObj o => o
  | _ => ∅
  end.

(** [{ value: email, ...data }] *)
Definition new_email_entry (email : string) (data : option obj) : obj :=
  spread data ∪ {[ "value" := VStr email ]}.

(** [{ ...userEmail, ...data }] *)
Definition merged_email_entry (userEmail : value) (data : option obj) : obj :=
  spread data ∪ spread_value userEmail.

Definition push_email (emailData : obj) : update :=
  Update ∅ ∅ currentDate_dateUpdated {[ "emails" := VObj emailData ]}.

Definition set_email (idx : Z) (emailData : obj) : update :=
  Update {[ "emails." ++ index_to_string idx := VObj emailData ]} ∅
         currentDate_dateUpdated ∅.

(** [assertUserEmailData(userId, email, data)] (lines 267-290).
    [userEmail] is the entry found, or [undefined]; [indexOf] looks the
    same object up again (entries read from the store are distinct
    objects, so it is found where [find] found it), and gives [-1] for
    [undefined]. *)
Definition assertUserEmailData (userId email : string) (data : option obj) : prog :=
  (await ready ;;
   await Users.[FindOne (by_id userId)] as user ;;
   try (getprop user "emails") (fun emails =>
   match emails with
   | VArr entries =>
       match find_email email entries 0 with
       | inl e => Throw e
       | inr found =>
           let userEmail := from_option snd VUndefined found in
           let replace : prog :=
             if bool_decide (is_Some data) then
               let idx := from_option (fun f => Z.of_nat (fst f)) (-1)%Z found in
               let emailData := merged_email_entry userEmail data in
               await Users.[UpdateOne (by_id userId) (set_email idx emailData)] ;;
               Ret VUndefined
             else Ret VUndefined in
           if negb (truthy userEmail) then
             let emailData := new_email_entry email data in
             await Users.[UpdateOne (by_id userId) (push_email emailData)] ;;
             replace
           else replace
       end
   | _ => Throw (TypeError "user.emails.find is not a function")
   end))%prog.

(** [{ services: { [service]: { ...data } } }] under [$set]. *)
Definition set_services (service : string) (data : obj) : update :=
  Update {[ "services" := VObj {[ service := VObj data ]} ]} ∅
         currentDate_dateUpdated ∅.

(** [assertUserServiceData(userId, service, data)] (lines 300-307) *)
Definition assertUserServiceData (userId service : string) (data : obj) : prog :=
  (await ready ;;
   await Users.[UpdateOne (by_id userId) (set_services service data)] ;;
   Ret VUndefined)%prog.

(** [mapUserToServiceData(user, service)] (lines 311-313):
    [user && user.services && user.services[service]], no store access.
    A falsy [user] or [user.services] is returned as it is; no string,
    number, boolean, date or array has a property named [services]. *)
Definition mapUserToServiceData (user : value) (service : string) : reading :=
  if truthy user then
    let services :=
      match user with VObj o => prop o "services" | _ => VUndefined end in
    if truthy services then member services service else Data services
  else Data user.

(** ** Observations on a machine *)

(** The gate is open and both collection handles are the ones [_init]
    resolves. *)
Definition is_ready (m : machine) : Prop :=
  initted (drv m) = true ∧
  users (drv m) = Some (userTableName (drv m)) ∧
  config (drv m) = Some (configTableName (drv m)).

Definition users_coll (m : machine) : list obj :=
  collection (wld m) (userTableName (drv m)).

Definition config_coll (m : machine) : list obj :=
  collection (wld m) (configTableName (drv m)).

(** The machine after a gate promise that resolved at once. *)
Definition passed (m : machine) : machine :=
  Machine (drv m) (wld m) (S (nextPromise m)) (resolved m ++ [nextPromise m]) (log m).

(** The machine after a request was sent and the store moved to [w]. *)
Definition sent (h : handle) (c : call) (w : world) (m : machine) : machine :=
  with_log (log m ++ [EvStore h c]) (with_world w m).

(** A method whose first step is [await this._ready()]. *)
Definition gated (c : prog) : bool :=
  match c with
  | AwaitReady _ => true
  | _ => false
  end.

(** [n] successive calls of [_ready()], with the promises they return. *)
Fixpoint ready_calls (n : nat) (m : machine) : list nat * machine :=
  match n with
  | 0 => ([], m)
  | S n =>
      let '(p, m1) := _ready m in
      let '(ps, m2) := ready_calls n m1 in
      (p :: ps, m2)
  end.

(** [db.initted = false], as the test of [_ready()] does on a driver whose
    collections are resolved. *)
Definition close_gate (m : machine) : machine :=
  let d := drv m in
  Machine (Driver (userTableName d) (configTableName d) (dbName d)
                  (readySubs d) false (users d) (config d))
          (wld m) (nextPromise m) (resolved m) (log m).

(** [{ init: false }] *)
Definition init_false : options := Options None None None (Some false).

(** The fields [verifyUserAccount] writes with its default field names. *)
Definition verify_keys : list string :=
  ["verified"; "verificationToken"; "verificationTokenExpiration"; "dateUpdated"].

(** The record [addResetPasswordToken] leaves, with its default field
    names, when the store's clock reads [now]. *)
Definition reset_doc (now : Z) (token tokenExpiration : value) (u : obj) : obj :=
  <["dateUpdated" := VDate now]>
    (delete "verificationToken" (delete "tokenExpirationField"
       (<["resetPassTokenExpiration" := tokenExpiration]>
          (<["resetPassToken" := token]> u)))).

(** ** The data model of a stored user

    The primary key is a string, [emails] is a sequence of objects whose
    [value] is a string, and [services] maps each service name to an
    object whose [id] is a string. *)

Definition string_field (k : string) (o : obj) : bool :=
  match o !! k with
  | Some (VStr _) | None => true
  | Some _ => false
  end.

Definition email_record (w : value) : bool :=
  match w with
  | VObj o => string_field "value" o
  | _ => false
  end.

Definition service_record (w : value) : bool :=
  match w with
  | VObj o => string_field "id" o
  | _ => false
  end.

Definition user_record (u : obj) : bool :=
  string_field "_id" u
  && match u !! "emails" with
     | None => true
     | Some (VArr l) => forallb email_record l
     | Some _ => false
     end
  && match u !! "services" with
     | None => true
     | Some (VObj ss) => bool_decide (map_Forall (fun _ w => service_record w = true) ss)
     | Some _ => false
     end.

(** Some entry of [emails] has [value == email]. *)
Definition has_email (email : string) (u : obj) : bool :=
  match u !! "emails" with
  | Some (VArr l) =>
      existsb (fun w => match w with
                        | VObj o => bool_decide (o !! "value" = Some (VStr email))
                        | _ => false
                        end) l
  | _ => false
  end.

(** [services[service].id == id] *)
Definition has_service_id (service id : string) (u : obj) : bool :=
  match u !! "services" with
  | Some (VObj ss) =>
      match ss !! service with
      | Some (VObj r) => bool_decide (r !! "id" = Some (VStr id))
      | _ => false
      end
  | _ => false
  end.

(** ** A small database

    The two users of the repository's test suite, and a third one with a
    pending verification, a labelled address and a linked account. *)
Module Fixture.

Definition sheppard : obj :=
  <["services" := VObj {[ "facebook" := VObj {[ "id" := VStr "1" ]} ]}]>
    (<["emails" := VArr [VObj {[ "value" := VStr "sheppard@atlantis.net" ]}]]>
       {[ "_id" := VStr "sheppard" ]}).

Definition mckay : obj :=
  <["emails" := VArr [VObj {[ "value" := VStr "mckay@atlantis.net" ]}]]>
    {[ "_id" := VStr "mckay" ]}.

Definition weir_email : obj :=
  <["type" := VStr "work"]> {[ "value" := VStr "weir@atlantis.net" ]}.

Definition weir : obj :=
  <["dateUpdated" := VDate 1000]>
    (<["verificationTokenExpiration" := VDate 9000]>
       (<["verificationToken" := VStr "v3rify"]>
          (<["verified" := VBool false]>
             (<["services" := VObj {[ "facebook" := VObj {[ "id" := VStr "7" ]} ]}]>
                (<["emails" := VArr [VObj weir_email]]>
                   {[ "_id" := VStr "weir" ]}))))).

Definition stored : gmap string (list obj) :=
  {[ "users" := [sheppard; mckay; weir] ]}.

(** A clock that advances by a millisecond at every reading, from
    2000. *)
Definition ticking : world :=
  World stored (fun n => 2000 + Z.of_nat n)%Z 0
        (fun n => "oid" ++ index_to_string (Z.of_nat n)) 0.

(** A clock read several times within the millisecond 1000. *)
Definition same_millisecond : world :=
  World stored (fun _ => 1000%Z) 0
        (fun n => "oid" ++ index_to_string (Z.of_nat n)) 0.

Definition driver : machine := constructor ticking no_options.

Definition unready : machine := constructor ticking init_false.

Definition verified : obj := {[ "verified" := VBool true ]}.

Definition dateToString (ms : Z) : string := index_to_string ms.

End Fixture.

(** ** Further observations *)

(** The four reading methods, and the one request each sends. *)
Inductive reader :=
| ReadConfig (dateToString : Z → string)
| ReadById (userId : string)
| ReadByEmail (email : string)
| ReadByServiceIdOrEmail (service id email : string).

Definition reader_prog (r : reader) : prog :=
  match r with
  | ReadConfig dateToString => fetchConfig dateToString
  | ReadById userId => fetchUserById userId
  | ReadByEmail email => fetchUserByEmail email
  | ReadByServiceIdOrEmail service id email =>
      fetchUserByServiceIdOrEmail service id email
  end.

Definition reader_request (r : reader) : event :=
  match r with
  | ReadConfig _ => EvStore Config FindAll
  | ReadById userId => EvStore Users (FindOne (by_id userId))
  | ReadByEmail email => EvStore Users (FindOne (by_email email))
  | ReadByServiceIdOrEmail service id email =>
      EvStore Users (FindOne (by_service_id_or_email service id email))
  end.

(** The record [createUser] stores for [user]: the three dates are three
    successive readings of the clock. *)
Definition stamped (w : world) (user : obj) : obj :=
  <["dateRegistered" := VDate (clock w (S (S (ticks w))))]>
    (<["dateAdded" := VDate (clock w (S (ticks w)))]>
       (<["dateUpdated" := VDate (clock w (ticks w))]> user)).

(** The update [updateUser] sends for a patch. *)
Definition patch_update (patch : obj) : update :=
  Update patch ∅ currentDate_dateUpdated ∅.

(** No entry of [es] carries the address: every entry is an object with
    another [value], or none. *)
Definition no_entry (email : string) (es : list value) : Prop :=
  Forall (fun w => ∃ r : obj, w = VObj r ∧ r !! "value" ≠ Some (VStr email)) es.




(** The fields [addResetPasswordToken] writes with its default field
    names. *)
Definition reset_keys : list string :=
  ["resetPassToken"; "resetPassTokenExpiration"; "verificationToken";
   "tokenExpirationField"; "dateUpdated"].

Module More.

Definition teyla : obj :=
  <["name" := VStr "Teyla Emmagan"]> {[ "_id" := VStr "teyla" ]}.

Definition john : obj := {[ "name" := VStr "John Sheppard" ]}.

Definition rodney : obj := {[ "name" := VStr "Rodney McKay" ]}.

Definition mckay_emails : list value :=
  [VObj {[ "value" := VStr "mckay@atlantis.net" ]}].

Definition client : obj := {[ "clientID" := VStr "403" ]}.

(** The driver after [setConfigKey("service", "facebook", client)]. *)
Definition configured : machine :=
  (run (setConfigKey "service" "facebook" client) Fixture.driver).2.

(** The driver after [createUser(teyla)]: a user without [emails]. *)
Definition with_teyla : machine := (run (createUser teyla) Fixture.driver).2.

Definition personnel : options :=
  Options (Some "personnel") (Some EmptyString) None None.

End More.

(** * Properties *)

(** Closes an equation between closed terms by evaluating both sides. *)
Ltac by_vm :=
  lazymatch goal with
  | |- @eq ?A ?x ?y => exact (@eq_refl A y <: @eq A x y)
  end.

(** ** Dotted paths and array positions *)

Lemma split_dots_dotfree s : dotfree s = true → split_dots s = [s].
Proof.
  induction s as [|a s IH]; simpl; [done|].
  destruct (Ascii.eqb a dot); simpl; [done|]. intros H. by rewrite IH.
Qed.

Lemma split_dots_app s t :
  dotfree s = true → split_dots (s ++ String dot t) = s :: split_dots t.
Proof.
  induction s as [|a s IH]; simpl.
  - done.
  - destruct (Ascii.eqb a dot); simpl; [done|]. intros H. by rewrite IH.
Qed.

Lemma valid_key_dotfree k : valid_key k = true → dotfree k = true.
Proof. unfold valid_key. by intros [_ ?]%andb_true_iff. Qed.

Lemma dotfree_uint d : dotfree (NilEmpty.string_of_uint d) = true.
Proof. induction d; simpl; auto. Qed.

Lemma to_int_nat n : ∃ d, Z.to_int (Z.of_nat n) = Decimal.Pos d ∧ d ≠ Decimal.Nil.
Proof.
  destruct n as [|n]; simpl.
  - eexists; split; [done|done].
  - eexists; split; [done|]. apply DecimalPos.Unsigned.to_uint_nonnil.
Qed.

Lemma index_to_string_dotfree n : dotfree (index_to_string (Z.of_nat n)) = true.
Proof.
  unfold index_to_string. destruct (to_int_nat n) as (d & -> & Hd).
  destruct d; try done; apply (dotfree_uint (_ _)).
Qed.

Lemma index_to_string_nonempty n : index_to_string (Z.of_nat n) ≠ EmptyString.
Proof.
  unfold index_to_string. destruct (to_int_nat n) as (d & -> & Hd).
  destruct d; done.
Qed.

(** Mongo reads the component [String(i)] back as the position [i]. *)
Lemma is_index_to_string n : is_index (index_to_string (Z.of_nat n)) = Some n.
Proof.
  unfold is_index, index_to_string at 1.
  destruct (to_int_nat n) as (d & Hd & Hnil).
  rewrite NilZero.isi; rewrite Hd; [|congruence..].
  assert (Z.of_uint d = Z.of_nat n) as Hz.
  { change (Z.of_uint d) with (Z.of_int (Decimal.Pos d)). rewrite <- Hd. apply of_to. }
  cbv zeta. rewrite Hz. rewrite decide_True.
  - by rewrite Nat2Z.id.
  - unfold index_to_string. by rewrite Hd.
Qed.

Lemma split_email_path n :
  split_dots ("emails." ++ index_to_string (Z.of_nat n))
  = ["emails"; index_to_string (Z.of_nat n)].
Proof.
  change ("emails." ++ ?s) with ("emails" ++ String dot s).
  rewrite split_dots_app by reflexivity.
  by rewrite split_dots_dotfree by apply index_to_string_dotfree.
Qed.


(** ** The updates the adapter sends *)

Lemma set_top k x o : set_path [k] x (VObj o) = Some (VObj (<[k:=x]> o)).
Proof. reflexivity. Qed.

Lemma unset_top k o : unset_path [k] (VObj o) = Some (VObj (delete k o)).
Proof. reflexivity. Qed.

(** Runs the modifiers of an update whose paths are top-level field
    names, once the lists of its keys have been computed. *)
Ltac top_level_update :=
  unfold fold_paths; cbn [upd_set upd_unset upd_currentDate upd_push];
  unfold currentDate_dateUpdated;
  rewrite ?map_to_list_singleton, ?map_to_list_empty;
  cbn [foldr fst snd mbind option_bind];
  repeat (rewrite split_dots_dotfree by reflexivity);
  repeat (rewrite ?set_top, ?unset_top; cbn [mbind option_bind]);
  rewrite decide_True
    by (by rewrite ?lookup_insert_ne, ?lookup_delete_ne, ?lookup_insert_ne by done).

Lemma apply_verify now (u : obj) :
  apply_update now
    (verify_update "verified" "verificationToken" "verificationTokenExpiration") u
  = Some (<["dateUpdated" := VDate now]>
            (delete "verificationTokenExpiration"
               (delete "verificationToken" (<["verified" := VBool true]> u)))).
Proof.
  unfold apply_update.
  replace (update_paths _) with
    [["verified"]; ["verificationTokenExpiration"]; ["verificationToken"];
     ["dateUpdated"]] by (vm_compute; reflexivity).
  replace (valid_paths _ && conflict_free _) with true by (vm_compute; reflexivity).
  unfold verify_update, fold_paths; cbn [upd_set upd_unset upd_currentDate upd_push].
  replace (map_to_list (<["verificationTokenExpiration" := VStr EmptyString]> _))
    with [("verificationTokenExpiration", VStr EmptyString);
          ("verificationToken", VStr EmptyString)]
    by (vm_compute; reflexivity).
  top_level_update.
  reflexivity.
Qed.

Lemma apply_reset now (token tokenExpiration : value) (u : obj) :
  apply_update now
    (reset_update token tokenExpiration "resetPassToken" "resetPassTokenExpiration") u
  = Some (reset_doc now token tokenExpiration u).
Proof.
  unfold apply_update, reset_doc.
  replace (update_paths _) with
    [["resetPassTokenExpiration"]; ["resetPassToken"];
     ["verificationToken"]; ["tokenExpirationField"]; ["dateUpdated"]]
    by (vm_compute; reflexivity).
  replace (valid_paths _ && conflict_free _) with true by (vm_compute; reflexivity).
  unfold reset_update, fold_paths; cbn [upd_set upd_unset upd_currentDate upd_push].
  replace (map_to_list (<["resetPassTokenExpiration" := tokenExpiration]> _))
    with [("resetPassTokenExpiration", tokenExpiration); ("resetPassToken", token)]
    by (vm_compute; reflexivity).
  replace (map_to_list (<["tokenExpirationField" := VStr EmptyString]> _))
    with [("verificationToken", VStr EmptyString);
          ("tokenExpirationField", VStr EmptyString)]
    by (vm_compute; reflexivity).
  top_level_update.
  reflexivity.
Qed.

Lemma apply_set_services now service (data u : obj) :
  apply_update now (set_services service data) u
  = Some (<["dateUpdated" := VDate now]>
            (<["services" := VObj {[ service := VObj data ]}]> u)).
Proof.
  unfold apply_update.
  replace (update_paths _) with [["services"]; ["dateUpdated"]].
  2:{ unfold update_paths, set_services, currentDate_dateUpdated;
      cbn [upd_set upd_unset upd_currentDate upd_push].
      rewrite !map_to_list_singleton, map_to_list_empty. reflexivity. }
  replace (valid_paths _ && conflict_free _) with true by (vm_compute; reflexivity).
  unfold set_services. top_level_update. reflexivity.
Qed.

Lemma apply_set_email now i (entry u : obj) es :
  u !! "emails" = Some (VArr es) →
  i < length es →
  apply_update now (set_email (Z.of_nat i) entry) u
  = Some (<["dateUpdated" := VDate now]>
            (<["emails" := VArr (<[i := VObj entry]> es)]> u)).
Proof.
  intros Hemails Hlt. unfold apply_update.
  replace (update_paths _)
    with [["emails"; index_to_string (Z.of_nat i)]; ["dateUpdated"]].
  2:{ unfold update_paths, set_email, currentDate_dateUpdated;
      cbn [upd_set upd_unset upd_currentDate upd_push].
      rewrite !map_to_list_singleton, map_to_list_empty. cbn [fmap list_fmap fst app].
      by rewrite split_email_path. }
  replace (valid_paths _ && conflict_free _) with true.
  2:{ pose proof (index_to_string_nonempty i) as Hne.
      destruct (index_to_string (Z.of_nat i)) as [|a s]; [congruence|]. reflexivity. }
  unfold set_email, fold_paths; cbn [upd_set upd_unset upd_currentDate upd_push].
  unfold currentDate_dateUpdated.
  rewrite !map_to_list_singleton, map_to_list_empty.
  cbn [foldr fst snd mbind option_bind].
  rewrite split_email_path. rewrite split_dots_dotfree by reflexivity.
  cbn [set_path]. rewrite Hemails. cbn [default from_option id set_path].
  rewrite is_index_to_string. cbn [mbind option_bind].
  rewrite (decide_True (P := i < length es)) by done.
  rewrite decide_True by (by rewrite !lookup_insert_ne by done).
  reflexivity.
Qed.

(** ** Running methods on a ready driver *)

Lemma run_ready k m :
  initted (drv m) = true → run (AwaitReady k) m = run k (passed m).
Proof. intros H. cbn [run]. unfold _ready. by rewrite H. Qed.

Lemma run_store h c k m name :
  handle_of h (drv m) = Some name →
  run (Store h c k) m =
    match perform name c (wld m) with
    | (inl e, w) => (Rejected e, sent h c w m)
    | (inr v, w) => run (k v) (sent h c w m)
    end.
Proof.
  intros H. cbn [run]. rewrite H.
  by destruct (perform name c (wld m)) as [[e|v] w].
Qed.

Lemma run_single_store h c v m name :
  handle_of h (drv m) = Some name →
  log (run (Store h c (fun _ => Ret v)) m).2 = (log m ++ [EvStore h c])%list.
Proof.
  intros H. rewrite (run_store _ _ _ _ name) by done.
  by destruct (perform name c (wld m)) as [[e|x] w].
Qed.

Lemma collection_set name c w : collection (set_collection name c w) name = c.
Proof. unfold collection, set_collection; cbn. by rewrite lookup_insert_eq. Qed.

Lemma perform_findOne name q w :
  perform name (FindOne q) w =
    (inr (match findOne q (collection w name) with
          | Some (_, d) => VObj d
          | None => VNull
          end), w).
Proof. reflexivity. Qed.

Lemma perform_updateOne name q u w i d d' :
  findOne q (collection w name) = Some (i, d) →
  apply_update (now w) u d = Some d' →
  perform name (UpdateOne q u) w =
    (inr (write_result 1),
     set_collection name (<[i:=d']> (collection w name)) (tick w)).
Proof. intros Hf Ha. unfold perform. by rewrite Hf, Ha. Qed.

(** The filter [{ _id: userId }] only looks at the primary key. *)
Lemma matches_by_id userId (d : obj) :
  matches (by_id userId) d =
    match d !! "_id" with Some w => leaf_matches userId w | None => false end.
Proof.
  unfold by_id; cbn [matches]. rewrite split_dots_dotfree by reflexivity.
  cbn [resolve]. destruct (d !! "_id"); cbn; [by rewrite orb_false_r|done].
Qed.

(** A record rewritten in place, with its primary key untouched, is still
    the one its key selects. *)
Lemma findOne_by_id_insert userId (coll : list obj) i d d' :
  findOne (by_id userId) coll = Some (i, d) →
  d' !! "_id" = d !! "_id" →
  findOne (by_id userId) (<[i:=d']> coll) = Some (i, d').
Proof.
  unfold findOne. intros Hf Hid.
  apply list_find_Some in Hf as (Hi & Hm & Hbefore).
  apply list_find_Some. split_and!.
  - apply list_lookup_insert_eq. by eapply lookup_lt_Some.
  - rewrite matches_by_id, Hid, <- matches_by_id. done.
  - intros j y Hj Hlt. rewrite list_lookup_insert_ne in Hj by lia. eauto.
Qed.

Lemma run_fetchUserById userId m :
  is_ready m →
  ∃ m', run (fetchUserById userId) m =
          (Resolved (match findOne (by_id userId) (users_coll m) with
                     | Some (_, d) => VObj d
                     | None => VNull
                     end), m')
        ∧ drv m' = drv m ∧ wld m' = wld m.
Proof.
  intros (Hi & Hu & Hc). unfold fetchUserById.
  rewrite run_ready by done.
  rewrite (run_store _ _ _ _ (userTableName (drv m))) by done.
  rewrite perform_findOne. cbn [run]. eauto.
Qed.

Lemma run_find_or_null m q :
  is_ready m →
  ∃ m', run (Store Users (FindOne q) (fun results => Ret (js_or results VNull)))
            (passed m)
        = (Resolved (match findOne q (users_coll m) with
                     | Some (_, d) => VObj d
                     | None => VNull
                     end), m').
Proof.
  intros (Hi & Hu & Hc).
  rewrite (run_store _ _ _ _ (userTableName (drv m))) by done.
  rewrite perform_findOne. cbn [run]. eexists. f_equal. f_equal.
  cbn [passed wld drv]. fold (users_coll m).
  by destruct (findOne q (users_coll m)) as [[]|].
Qed.

(** One [updateOne] by primary key on a stored user. *)
Lemma run_update_user m userId upd i u u' :
  users (drv m) = Some (userTableName (drv m)) →
  findOne (by_id userId) (users_coll m) = Some (i, u) →
  apply_update (now (wld m)) upd u = Some u' →
  ∃ m',
    run (Store Users (UpdateOne (by_id userId) upd) (fun _ => Ret VUndefined)) m
      = (Resolved VUndefined, m')
    ∧ drv m' = drv m
    ∧ log m' = (log m ++ [EvStore Users (UpdateOne (by_id userId) upd)])%list
    ∧ users_coll m' = <[i:=u']> (users_coll m).
Proof.
  intros Hu Hfind Happ.
  rewrite (run_store _ _ _ _ (userTableName (drv m))) by done.
  erewrite perform_updateOne; [|exact Hfind|exact Happ].
  cbn [run]. eexists. split; [reflexivity|]. split_and!; try done.
  unfold users_coll; cbn. by rewrite collection_set.
Qed.

Lemma fetch_updated_user m m' userId i u u' :
  is_ready m' →
  findOne (by_id userId) (users_coll m) = Some (i, u) →
  users_coll m' = <[i:=u']> (users_coll m) →
  u' !! "_id" = u !! "_id" →
  (run (fetchUserById userId) m').1 = Resolved (VObj u').
Proof.
  intros Hr Hfind Hcoll Hid.
  destruct (run_fetchUserById userId m' Hr) as (m'' & -> & _).
  cbn [fst]. rewrite Hcoll. by erewrite findOne_by_id_insert.
Qed.

(** ** The readiness gate *)

Lemma release_all subs done : release subs done = ([], (done ++ subs)%list).
Proof.
  revert done. induction subs as [|r subs IH]; intros done; cbn [release].
  - by rewrite app_nil_r.
  - by rewrite IH, <- app_assoc.
Qed.

Lemma ready_calls_pending n m :
  initted (drv m) = false →
  (ready_calls n m).1 = seq (nextPromise m) n
  ∧ initted (drv (ready_calls n m).2) = false
  ∧ resolved (ready_calls n m).2 = resolved m
  ∧ readySubs (drv (ready_calls n m).2)
    = (readySubs (drv m) ++ seq (nextPromise m) n)%list
  ∧ wld (ready_calls n m).2 = wld m
  ∧ log (ready_calls n m).2 = log m.
Proof.
  revert m. induction n as [|n IH]; intros m Hm.
  - cbn. by rewrite app_nil_r.
  - cbn [ready_calls]. unfold _ready. rewrite Hm.
    set (m1 := Machine _ _ _ _ _).
    destruct (IH m1 eq_refl) as (Hps & Hi & Hres & Hsubs & Hw & Hl).
    destruct (ready_calls n m1) as [ps m2]. cbn [fst snd] in *.
    subst m1; cbn in *. rewrite Hps, Hsubs, <- app_assoc. done.
Qed.

(** A gated method called before readiness suspends without touching the
    store, and continues from its [await] once [_init] has run. *)
Lemma gated_suspends c m :
  gated c = true →
  initted (drv m) = false →
  ∃ k m',
    run c m = (Awaiting (nextPromise m) k, m')
    ∧ readySubs (drv m') = (readySubs (drv m) ++ [nextPromise m])%list
    ∧ wld m' = wld m ∧ log m' = log m
    ∧ resume (Awaiting (nextPromise m) k) (_init m') = run k (_init m').
Proof.
  destruct c; try done. intros _ Hm. cbn [run]. unfold _ready. rewrite Hm.
  eexists _, _. split; [reflexivity|]. split_and!; try done.
  unfold resume. rewrite decide_True; [done|].
  unfold _init. rewrite release_all. cbn. set_solver.
Qed.

(** C9.  Calls of [_ready()] made before initialization are queued in the
    order they are made and none is resolved yet; [_init] then resolves
    every queued promise, in the order of the queue (first in, first out),
    and leaves the queue empty; a call of [_ready()] made once the driver
    is initialized resolves at once and queues nothing. *)
Theorem ready_waiters_released_in_order m n :
  initted (drv m) = false →
  let ps := (ready_calls n m).1 in
  let m1 := (ready_calls n m).2 in
  let m2 := _init m1 in
  length ps = n
  ∧ NoDup ps
  ∧ readySubs (drv m1) = (readySubs (drv m) ++ ps)%list
  ∧ resolved m1 = resolved m
  ∧ initted (drv m2) = true
  ∧ resolved m2 = (resolved m ++ readySubs (drv m) ++ ps)%list
  ∧ readySubs (drv m2) = []
  ∧ ∀ m3, initted (drv m3) = true →
      resolved (_ready m3).2 = (resolved m3 ++ [(_ready m3).1])%list
      ∧ readySubs (drv (_ready m3).2) = readySubs (drv m3).
Proof.
  intros Hm ps m1 m2.
  destruct (ready_calls_pending n m Hm) as (Hps & Hi & Hres & Hsubs & _).
  fold ps m1 in Hps, Hi, Hres, Hsubs. rewrite <- Hps in Hsubs.
  split_and!.
  - by rewrite Hps, length_seq.
  - rewrite Hps. apply NoDup_seq.
  - done.
  - done.
  - subst m2. unfold _init. by rewrite release_all.
  - subst m2. unfold _init. rewrite release_all. cbn. by rewrite Hres, Hsubs.
  - subst m2. unfold _init. by rewrite release_all.
  - intros m3 H3. unfold _ready. by rewrite H3.
Qed.

Lemma ready_waiters_released_in_order_witness :
  initted (drv Fixture.unready) = false
  ∧ readySubs (drv (ready_calls 3 Fixture.unready).2) = [0; 1; 2]
  ∧ resolved (ready_calls 3 Fixture.unready).2 = []
  ∧ resolved (_init (ready_calls 3 Fixture.unready).2) = [0; 1; 2]
  ∧ readySubs (drv (_init (ready_calls 3 Fixture.unready).2)) = [].
Proof.
  pose proof (ready_waiters_released_in_order Fixture.unready 3 eq_refl) as H.
  cbv zeta in H. destruct H as (_ & _ & Hq & Hn & _ & Hr & He & _).
  exact (conj eq_refl (conj Hq (conj Hn (conj Hr He)))).
Defined.

(** C3.  Every method of the adapter starts with [await this._ready()],
    except [addResetPasswordToken], whose first step is the [updateOne].
    On a driver built with [init: false] it therefore fails on the
    unresolved collection instead of waiting, and on a driver whose
    collections are resolved but whose gate is closed it writes to the
    store. *)
Theorem addResetPasswordToken_skips_gate
    dateToString db userId token tokenExpiration email service serviceId
    user type value data :
  let reset := addResetPasswordToken userId token tokenExpiration None None in
  (gated (fetchConfig dateToString) = true
   ∧ gated (setConfigKey type serviceId value) = true
   ∧ gated (createUser user) = true
   ∧ gated (updateUser userId user) = true
   ∧ gated (fetchUserById userId) = true
   ∧ gated (fetchUserByEmail email) = true
   ∧ gated (fetchUserByServiceIdOrEmail service serviceId email) = true
   ∧ gated (verifyUserAccount userId None None None) = true
   ∧ gated (assertUserEmailData userId email data) = true
   ∧ gated (assertUserServiceData userId service value) = true)
  ∧ gated reset = false
  ∧ (let m := constructor db init_false in
     initted (drv m) = false
     ∧ run reset m = (Rejected (TypeError "Cannot read property of undefined"), m))
  ∧ (let m := close_gate (constructor db no_options) in
     initted (drv m) = false
     ∧ log (run reset m).2 =
         [EvStore Users (UpdateOne (by_id userId)
            (reset_update token tokenExpiration
               "resetPassToken" "resetPassTokenExpiration"))]).
Proof.
  intros reset. split_and!; try done.
  cbn zeta. split; [done|].
  subst reset. unfold addResetPasswordToken. cbn [default from_option].
  by erewrite run_single_store.
Qed.

(** ** The configuration store *)

Section ConfigFacts.

Variable dateToString : Z → string.

(** A plain document becomes an own property of the entry of its type,
    whatever has been filed before. *)
Lemma file_row_plain out (r : obj) :
  plain_row dateToString r = true →
  ∃ t i,
    to_key dateToString (prop r "type") = Some t
    ∧ to_key dateToString (prop r "_id") = Some i
    ∧ inherited t = false
    ∧ i ≠ "__proto__"
    ∧ file_row dateToString out (VObj r)
      = Some (<[t := <[i := VObj r]> (default ∅ (out !! t))]> out).
Proof.
  unfold plain_row, file_row.
  destruct (to_key dateToString (prop r "type")) as [t|]; [|done].
  destruct (to_key dateToString (prop r "_id")) as [i|]; [|done].
  intros [Ht Hi]%andb_true_iff.
  apply negb_true_iff in Ht. apply negb_true_iff in Hi.
  exists t, i. rewrite Hi, Ht.
  apply String.eqb_neq in Hi.
  destruct (out !! t); by repeat split.
Qed.

(** Filing plain documents goes through, and the last document is filed
    last. *)
Lemma file_rows_app out rows (row : obj) :
  forallb (plain_row dateToString) rows = true →
  ∃ out',
    file_rows dateToString out (VObj <$> rows) = Some out'
    ∧ file_rows dateToString out (VObj <$> (rows ++ [row])%list)
      = file_row dateToString out' (VObj row).
Proof.
  revert out. induction rows as [|r rows IH]; intros out Hrows.
  - exists out. split; [done|]. cbn [app fmap list_fmap file_rows].
    by destruct (file_row dateToString out (VObj row)).
  - cbn [forallb] in Hrows. apply andb_true_iff in Hrows as [Hr Hrows].
    destruct (file_row_plain out r Hr) as (t & i & _ & _ & _ & _ & Hfile).
    cbn [fmap list_fmap app file_rows]. rewrite Hfile.
    by apply IH.
Qed.

Lemma run_fetchConfig m :
  is_ready m →
  forallb (plain_row dateToString) (config_coll m) = true →
  ∃ out m',
    file_rows dateToString ∅ (VObj <$> config_coll m) = Some out
    ∧ run (fetchConfig dateToString) m = (Resolved (VObj (VObj <$> out)), m').
Proof.
  intros (Hi & Hu & Hc) Hrows. unfold fetchConfig.
  rewrite run_ready by done.
  rewrite (run_store _ _ _ _ (configTableName (drv m))) by done.
  cbn [perform passed wld]. fold (config_coll m).
  destruct (file_rows_app ∅ (config_coll m) ∅ Hrows) as (out & Hout & _).
  rewrite Hout. cbn [run]. eauto.
Qed.

End ConfigFacts.

(** A [setConfigKey] that succeeded appended its row. *)
Lemma run_setConfigKey m type _id value r m' :
  is_ready m →
  run (setConfigKey type _id value) m = (Resolved r, m') →
  is_ready m'
  ∧ config_coll m' = (config_coll m ++ [config_row type _id value])%list.
Proof.
  intros (Hi & Hu & Hc). unfold setConfigKey.
  rewrite run_ready by done.
  rewrite (run_store _ _ _ _ (configTableName (drv m))) by done.
  cbn [perform passed wld].
  destruct (config_row type _id value !! "_id") as [key|] eqn:Hkey.
  - destruct (existsb _ _).
    + intros [=].
    + cbn [run]. intros [= _ <-]. split; [done|].
      unfold config_coll; cbn. by rewrite collection_set.
  - exfalso. unfold config_row in Hkey.
    apply lookup_union_None in Hkey as [_ Hkey].
    by rewrite lookup_insert_eq in Hkey.
Qed.

(** C4, amended.  On a driver whose stored configuration is plain, for
    every [type] that names no member of [Object.prototype], every [_id]
    other than [__proto__] and every [value] that has no field named
    [type] or [_id] of its own: once [setConfigKey(type, _id, value)] has
    succeeded, [fetchConfig()] returns a nested mapping whose entry at
    [type][_id] is [{ type, _id, ...value }].  When the configuration
    collection is empty, [fetchConfig()] returns the empty mapping. *)
Theorem setConfigKey_then_fetchConfig dateToString m :
  is_ready m →
  (∀ type _id value r m1,
     forallb (plain_row dateToString) (config_coll m) = true →
     inherited type = false →
     _id ≠ "__proto__" →
     value !! "type" = None →
     value !! "_id" = None →
     run (setConfigKey type _id value) m = (Resolved r, m1) →
     ∃ (out entries : obj) m2,
       run (fetchConfig dateToString) m1 = (Resolved (VObj out), m2)
       ∧ out !! type = Some (VObj entries)
       ∧ entries !! _id = Some (VObj (config_row type _id value)))
  ∧ (config_coll m = [] →
     ∃ m', run (fetchConfig dateToString) m = (Resolved (VObj ∅), m')).
Proof.
  intros Hr. split.
  - intros type _id value r m1 Hrows Hown Hproto Htype Hid Hrun.
    destruct (run_setConfigKey _ _ _ _ _ _ Hr Hrun) as (Hr1 & Hcoll).
    assert (to_key dateToString (prop (config_row type _id value) "type") = Some type
            ∧ to_key dateToString (prop (config_row type _id value) "_id") = Some _id)
      as [Hkt Hki].
    { unfold prop, config_row. rewrite !lookup_union_r by done.
      by rewrite lookup_insert_eq, lookup_insert_ne, lookup_singleton_eq. }
    assert (plain_row dateToString (config_row type _id value) = true) as Hrow.
    { unfold plain_row. rewrite Hkt, Hki, Hown. cbn [negb andb].
      apply negb_true_iff. by apply String.eqb_neq. }
    assert (forallb (plain_row dateToString) (config_coll m1) = true) as Hrows1.
    { rewrite Hcoll, forallb_app, Hrows. cbn [forallb]. by rewrite Hrow. }
    destruct (run_fetchConfig dateToString m1 Hr1 Hrows1)
      as (out & m2 & Hout & Hfetch).
    rewrite Hcoll in Hout.
    destruct (file_rows_app dateToString ∅ (config_coll m)
                (config_row type _id value) Hrows) as (out0 & _ & Hlast).
    rewrite Hlast in Hout. clear Hlast.
    destruct (file_row_plain dateToString out0 _ Hrow)
      as (t & i & Ht & Hi & _ & _ & Hfile).
    rewrite Hout in Hfile. injection Hfile as ->.
    assert (t = type) as -> by congruence.
    assert (i = _id) as -> by congruence.
    eexists _, _, m2. split; [exact Hfetch|]. split.
    + rewrite lookup_fmap, lookup_insert_eq. reflexivity.
    + by rewrite lookup_insert_eq.
  - intros Hempty.
    assert (forallb (plain_row dateToString) (config_coll m) = true) as Hrows
      by (by rewrite Hempty).
    destruct (run_fetchConfig dateToString m Hr Hrows) as (out & m' & Hout & Hfetch).
    rewrite Hempty in Hout. injection Hout as <-.
    exists m'. by rewrite Hfetch, fmap_empty.
Qed.

Lemma setConfigKey_then_fetchConfig_witness :
  is_ready Fixture.driver
  ∧ forallb (plain_row Fixture.dateToString) (config_coll Fixture.driver) = true
  ∧ inherited "test" = false
  ∧ "test1" ≠ "__proto__"
  ∧ (∃ (out entries : obj) m2,
       run (fetchConfig Fixture.dateToString)
           (run (setConfigKey "test" "test1" {[ "a" := VNum 1 ]}) Fixture.driver).2
         = (Resolved (VObj out), m2)
       ∧ out !! "test" = Some (VObj entries)
       ∧ entries !! "test1"
         = Some (VObj (config_row "test" "test1" {[ "a" := VNum 1 ]})))
  ∧ (∃ m', run (fetchConfig Fixture.dateToString) Fixture.driver
           = (Resolved (VObj ∅), m')).
Proof.
  assert (is_ready Fixture.driver) as Hr by (repeat split; by_vm).
  assert (forallb (plain_row Fixture.dateToString) (config_coll Fixture.driver)
          = true) as Hplain by by_vm.
  assert (inherited "test" = false) as Hown by by_vm.
  assert ("test1" ≠ "__proto__") as Hproto by discriminate.
  assert (({[ "a" := VNum 1 ]} : obj) !! "type" = None) as Htype by by_vm.
  assert (({[ "a" := VNum 1 ]} : obj) !! "_id" = None) as Hid by by_vm.
  assert (run (setConfigKey "test" "test1" {[ "a" := VNum 1 ]}) Fixture.driver
          = (Resolved VUndefined,
             (run (setConfigKey "test" "test1" {[ "a" := VNum 1 ]})
                  Fixture.driver).2)) as Hrun by by_vm.
  assert (config_coll Fixture.driver = []) as Hnil by by_vm.
  destruct (setConfigKey_then_fetchConfig Fixture.dateToString Fixture.driver Hr)
    as [Hset Hempty].
  exact (conj Hr (conj Hplain (conj Hown (conj Hproto
           (conj (Hset "test" "test1" {[ "a" := VNum 1 ]} VUndefined _
                    Hplain Hown Hproto Htype Hid Hrun)
                 (Hempty Hnil)))))).
Defined.

(** C4 as stated fails when [value] has a field named [type]: the row of
    [setConfigKey("service", "facebook", { type: "oauth" })] is stored with
    type ["oauth"], and [fetchConfig()] has no entry at ["service"]. *)
Lemma setConfigKey_type_overridden :
  ∃ m1 (out entries : obj) m2,
    run (setConfigKey "service" "facebook" {[ "type" := VStr "oauth" ]}) Fixture.driver
      = (Resolved VUndefined, m1)
    ∧ run (fetchConfig Fixture.dateToString) m1 = (Resolved (VObj out), m2)
    ∧ out !! "service" = None
    ∧ out !! "oauth" = Some (VObj entries)
    ∧ entries !! "facebook"
      = Some (VObj (config_row "service" "facebook" {[ "type" := VStr "oauth" ]})).
Proof.
  set (row := config_row "service" "facebook" {[ "type" := VStr "oauth" ]}).
  set (m1 := (run (setConfigKey "service" "facebook" {[ "type" := VStr "oauth" ]})
                  Fixture.driver).2).
  exists m1, {[ "oauth" := VObj {[ "facebook" := VObj row ]} ]},
    {[ "facebook" := VObj row ]}, (run (fetchConfig Fixture.dateToString) m1).2.
  repeat split; by_vm.
Qed.

(** ** Lookups *)

Lemma string_field_leaf k (o : obj) s x :
  string_field k o = true → o !! k = Some x →
  leaf_matches s x = bool_decide (o !! k = Some (VStr s)).
Proof.
  unfold string_field. intros Hs Hx. rewrite Hx in *.
  destruct x; try done. cbn.
  apply bool_decide_ext. split; [by intros ->|by intros [= ->]].
Qed.

(** On a stored user, the filter on ['emails.value'] is the condition
    "some entry of [emails] has this [value]". *)
Lemma matches_by_email email u :
  user_record u = true → matches (by_email email) u = has_email email u.
Proof.
  unfold user_record, has_email, by_email.
  intros [[_ Hemails]%andb_true_iff _]%andb_true_iff.
  cbn [matches].
  replace (split_dots "emails.value") with ["emails"; "value"] by reflexivity.
  cbn [resolve]. destruct (u !! "emails") as [[]|]; try done.
  replace (is_index "value") with (@None nat) by reflexivity. cbn [app].
  induction l as [|w l IH]; [done|].
  cbn [forallb] in Hemails. apply andb_true_iff in Hemails as [Hw Hl].
  cbn [flat_map existsb]. rewrite existsb_app, IH by done. f_equal.
  destruct w; try done. cbn [email_record] in Hw.
  destruct (o !! "value") as [x|] eqn:Hx.
  - cbn [existsb]. rewrite orb_false_r, <- Hx. by apply string_field_leaf.
  - cbn. symmetry. by apply bool_decide_eq_false.
Qed.



Lemma matches_id userId u :
  user_record u = true →
  matches (by_id userId) u = bool_decide (u !! "_id" = Some (VStr userId)).
Proof.
  unfold user_record. intros [[Hid _]%andb_true_iff _]%andb_true_iff.
  rewrite matches_by_id. destruct (u !! "_id") as [x|] eqn:Hx.
  - rewrite <- Hx. by apply string_field_leaf.
  - symmetry. by apply bool_decide_eq_false.
Qed.

(** [findOne] in terms of a condition that agrees with the filter on the
    stored documents. *)
Lemma findOne_agree q (P : obj → bool) coll :
  (∀ u, u ∈ coll → matches q u = P u) →
  match findOne q coll with
  | Some (_, u) => u ∈ coll ∧ P u = true
  | None => existsb P coll = false
  end.
Proof.
  intros Hagree. unfold findOne.
  destruct (list_find _ coll) as [[i u]|] eqn:Hfind.
  - apply list_find_Some in Hfind as (Hi & Hm & _).
    assert (u ∈ coll) as Hin by (by eapply list_elem_of_lookup_2).
    split; [done|]. by rewrite <- Hagree.
  - rewrite list_find_None, Forall_forall in Hfind.
    apply not_true_iff_false. intros (u & Hin & HP)%existsb_exists.
    apply list_elem_of_In in Hin. apply (Hfind u Hin). by rewrite Hagree.
Qed.




(** The two lookups of the test suite: a match by address only, and a
    match by linked account only. *)
Example fetch_by_email_only :
  (run (fetchUserByServiceIdOrEmail "facebook" "no-match" "mckay@atlantis.net")
       Fixture.driver).1 = Resolved (VObj Fixture.mckay).
Proof. vm_compute. reflexivity. Qed.

Example fetch_by_service_only :
  (run (fetchUserByServiceIdOrEmail "facebook" "1" "non-matching-email")
       Fixture.driver).1 = Resolved (VObj Fixture.sheppard).
Proof. vm_compute. reflexivity. Qed.



(** ** Verification and reset tokens *)

(** C7.  For every stored user, [verifyUserAccount(id)] with the default
    field names sends, after its [findOne], exactly one [updateOne], which
    carries the three modifiers together; it leaves [verified] true,
    [verificationToken] and [verificationTokenExpiration] absent and
    [dateUpdated] at the store's clock, and changes no other field.  A
    fetch of the user afterwards returns that record. *)
Theorem verifyUserAccount_one_update m userId i u :
  is_ready m →
  findOne (by_id userId) (users_coll m) = Some (i, u) →
  ∃ m' u',
    run (verifyUserAccount userId None None None) m = (Resolved VUndefined, m')
    ∧ log m' = (log m ++
        [EvStore Users (FindOne (by_id userId));
         EvStore Users (UpdateOne (by_id userId)
            (verify_update "verified" "verificationToken"
               "verificationTokenExpiration"))])%list
    ∧ users_coll m' = <[i:=u']> (users_coll m)
    ∧ (run (fetchUserById userId) m').1 = Resolved (VObj u')
    ∧ u' !! "verified" = Some (VBool true)
    ∧ u' !! "verificationToken" = None
    ∧ u' !! "verificationTokenExpiration" = None
    ∧ u' !! "dateUpdated" = Some (VDate (now (wld m)))
    ∧ (∀ k, k ∉ verify_keys → u' !! k = u !! k).
Proof.
  intros (Hi & Hu & Hc) Hfind. unfold verifyUserAccount; cbn [default from_option].
  rewrite run_ready by done.
  rewrite (run_store _ _ _ _ (userTableName (drv m))) by done.
  rewrite perform_findOne.
  set (m1 := sent _ _ _ _).
  destruct (run_update_user m1 userId _ i u _ Hu Hfind (apply_verify _ u))
    as (m' & Hrun & Hdrv & Hlog & Hcoll).
  assert (∀ k, k ∉ verify_keys →
            (<["dateUpdated" := VDate (now (wld m))]>
               (delete "verificationTokenExpiration"
                  (delete "verificationToken" (<["verified" := VBool true]> u))))
              !! k = u !! k) as Hframe.
  { intros k Hk. unfold verify_keys in Hk. rewrite !not_elem_of_cons in Hk.
    destruct Hk as (?&?&?&?&_).
    by rewrite lookup_insert_ne, !lookup_delete_ne, lookup_insert_ne by done. }
  eexists m', _. split_and!; [exact Hrun| |exact Hcoll| | | | | |exact Hframe].
  - rewrite Hlog. subst m1. cbn [log sent with_log with_world passed].
    by rewrite <- app_assoc.
  - eapply fetch_updated_user; [|exact Hfind|exact Hcoll|].
    + unfold is_ready. by rewrite Hdrv.
    + apply Hframe. unfold verify_keys. rewrite !not_elem_of_cons.
      split_and!; try done. apply not_elem_of_nil.
  - by rewrite lookup_insert_ne, !lookup_delete_ne, lookup_insert_eq by done.
  - by rewrite lookup_insert_ne, lookup_delete_ne, lookup_delete_eq by done.
  - by rewrite lookup_insert_ne, lookup_delete_eq by done.
  - by rewrite lookup_insert_eq.
Qed.

Lemma verifyUserAccount_one_update_witness :
  is_ready Fixture.driver
  ∧ findOne (by_id "weir") (users_coll Fixture.driver) = Some (2, Fixture.weir)
  ∧ ∃ m' u',
      run (verifyUserAccount "weir" None None None) Fixture.driver
        = (Resolved VUndefined, m')
      ∧ log m' = (log Fixture.driver ++
          [EvStore Users (FindOne (by_id "weir"));
           EvStore Users (UpdateOne (by_id "weir")
              (verify_update "verified" "verificationToken"
                 "verificationTokenExpiration"))])%list
      ∧ users_coll m' = <[2:=u']> (users_coll Fixture.driver)
      ∧ (run (fetchUserById "weir") m').1 = Resolved (VObj u')
      ∧ u' !! "verified" = Some (VBool true)
      ∧ u' !! "verificationToken" = None
      ∧ u' !! "verificationTokenExpiration" = None
      ∧ u' !! "dateUpdated" = Some (VDate (now (wld Fixture.driver)))
      ∧ (∀ k, k ∉ verify_keys → u' !! k = Fixture.weir !! k).
Proof.
  assert (is_ready Fixture.driver) as Hr by (by split_and!).
  assert (findOne (by_id "weir") (users_coll Fixture.driver) = Some (2, Fixture.weir))
    as Hfind by (vm_compute; reflexivity).
  exact (conj Hr (conj Hfind
    (verifyUserAccount_one_update Fixture.driver "weir" 2 Fixture.weir Hr Hfind))).
Defined.

Lemma run_addResetPasswordToken m userId token tokenExpiration i u :
  is_ready m →
  findOne (by_id userId) (users_coll m) = Some (i, u) →
  ∃ m',
    run (addResetPasswordToken userId token tokenExpiration None None) m
      = (Resolved VUndefined, m')
    ∧ is_ready m'
    ∧ log m' = (log m ++ [EvStore Users (UpdateOne (by_id userId)
         (reset_update token tokenExpiration
            "resetPassToken" "resetPassTokenExpiration"))])%list
    ∧ users_coll m'
      = <[i := reset_doc (now (wld m)) token tokenExpiration u]> (users_coll m).
Proof.
  intros (Hi & Hu & Hc) Hfind. unfold addResetPasswordToken; cbn [default from_option].
  destruct (run_update_user m userId _ i u _ Hu Hfind
              (apply_reset _ token tokenExpiration u))
    as (m' & Hrun & Hdrv & Hlog & Hcoll).
  exists m'. split_and!; try done; unfold is_ready; by rewrite Hdrv.
Qed.

(** C8, amended.  For every stored user,
    [addResetPasswordToken(id, token, tokenExpiration)] with the default
    field names sets [resetPassToken] to [token] and
    [resetPassTokenExpiration] to [tokenExpiration], removes
    [verificationToken], and sets [dateUpdated] to the reading of the
    store's clock at the update. *)
Theorem addResetPasswordToken_sets_token m userId token tokenExpiration i u :
  is_ready m →
  findOne (by_id userId) (users_coll m) = Some (i, u) →
  ∃ m' u',
    run (addResetPasswordToken userId token tokenExpiration None None) m
      = (Resolved VUndefined, m')
    ∧ users_coll m' = <[i:=u']> (users_coll m)
    ∧ (run (fetchUserById userId) m').1 = Resolved (VObj u')
    ∧ u' !! "resetPassToken" = Some token
    ∧ u' !! "resetPassTokenExpiration" = Some tokenExpiration
    ∧ u' !! "verificationToken" = None
    ∧ u' !! "dateUpdated" = Some (VDate (now (wld m))).
Proof.
  intros Hr Hfind.
  destruct (run_addResetPasswordToken m userId token tokenExpiration i u Hr Hfind)
    as (m' & Hrun & Hr' & _ & Hcoll).
  exists m', (reset_doc (now (wld m)) token tokenExpiration u).
  unfold reset_doc in *. split_and!; try done.
  - eapply fetch_updated_user; [done..|].
    by rewrite lookup_insert_ne, !lookup_delete_ne, !lookup_insert_ne by done.
  - by rewrite lookup_insert_ne, !lookup_delete_ne, lookup_insert_ne,
       lookup_insert_eq by done.
  - by rewrite lookup_insert_ne, !lookup_delete_ne, lookup_insert_eq by done.
  - by rewrite lookup_insert_ne, lookup_delete_eq by done.
  - by rewrite lookup_insert_eq.
Qed.

Lemma addResetPasswordToken_sets_token_witness :
  is_ready Fixture.driver
  ∧ findOne (by_id "weir") (users_coll Fixture.driver) = Some (2, Fixture.weir)
  ∧ ∃ m' u',
      run (addResetPasswordToken "weir" (VStr "tok") (VDate 5000) None None)
          Fixture.driver = (Resolved VUndefined, m')
      ∧ users_coll m' = <[2:=u']> (users_coll Fixture.driver)
      ∧ (run (fetchUserById "weir") m').1 = Resolved (VObj u')
      ∧ u' !! "resetPassToken" = Some (VStr "tok")
      ∧ u' !! "resetPassTokenExpiration" = Some (VDate 5000)
      ∧ u' !! "verificationToken" = None
      ∧ u' !! "dateUpdated" = Some (VDate (now (wld Fixture.driver))).
Proof.
  assert (is_ready Fixture.driver) as Hr by (by split_and!).
  assert (findOne (by_id "weir") (users_coll Fixture.driver) = Some (2, Fixture.weir))
    as Hfind by (vm_compute; reflexivity).
  exact (conj Hr (conj Hfind
    (addResetPasswordToken_sets_token Fixture.driver "weir"
       (VStr "tok") (VDate 5000) 2 Fixture.weir Hr Hfind))).
Defined.

(** C8 as stated fails when the clock has not advanced past the previous
    stamp: after an [updateUser] and an [addResetPasswordToken] within
    the same millisecond, [dateUpdated] is what it was before the
    second call. *)
Lemma addResetPasswordToken_same_millisecond :
  let m0 := constructor Fixture.same_millisecond no_options in
  let m1 := (run (updateUser "weir" {[ "name" := VStr "Elizabeth" ]}) m0).2 in
  let m2 := (run (addResetPasswordToken "weir" (VStr "tok") (VDate 5000)
                    None None) m1).2 in
  ∃ before after : obj,
    (run (fetchUserById "weir") m1).1 = Resolved (VObj before)
    ∧ (run (fetchUserById "weir") m2).1 = Resolved (VObj after)
    ∧ after !! "resetPassToken" = Some (VStr "tok")
    ∧ before !! "dateUpdated" = Some (VDate 1000)
    ∧ after !! "dateUpdated" = Some (VDate 1000)
    ∧ ¬ (1000 < 1000)%Z.
Proof.
  eexists _, _. split_and!; [vm_compute; reflexivity..|lia].
Qed.

(** C10.  For every stored user, [addResetPasswordToken] with the default
    field names leaves [verificationTokenExpiration] as it was: the keys
    of the [$unset] it sends are [verificationToken] and the name
    [tokenExpirationField] itself, so it is a field of that name that the
    update removes. *)
Theorem addResetPasswordToken_keeps_verification_expiration
    m userId token tokenExpiration i u :
  is_ready m →
  findOne (by_id userId) (users_coll m) = Some (i, u) →
  ∃ m' u' upd,
    run (addResetPasswordToken userId token tokenExpiration None None) m
      = (Resolved VUndefined, m')
    ∧ log m' = (log m ++ [EvStore Users (UpdateOne (by_id userId) upd)])%list
    ∧ dom (upd_unset upd)
      = ({[ "verificationToken"; "tokenExpirationField" ]} : gset string)
    ∧ users_coll m' = <[i:=u']> (users_coll m)
    ∧ u' !! "verificationTokenExpiration" = u !! "verificationTokenExpiration"
    ∧ u' !! "tokenExpirationField" = None.
Proof.
  intros Hr Hfind.
  destruct (run_addResetPasswordToken m userId token tokenExpiration i u Hr Hfind)
    as (m' & Hrun & Hr' & Hlog & Hcoll).
  eexists m', _, _. split_and!; [exact Hrun|exact Hlog| |exact Hcoll| |].
  - unfold reset_update; cbn [upd_unset].
    rewrite dom_insert_L, dom_singleton_L. set_solver.
  - unfold reset_doc.
    by rewrite lookup_insert_ne, !lookup_delete_ne, !lookup_insert_ne by done.
  - unfold reset_doc.
    by rewrite lookup_insert_ne, lookup_delete_ne, lookup_delete_eq by done.
Qed.

Lemma addResetPasswordToken_keeps_verification_expiration_witness :
  is_ready Fixture.driver
  ∧ findOne (by_id "weir") (users_coll Fixture.driver) = Some (2, Fixture.weir)
  ∧ Fixture.weir !! "verificationTokenExpiration" = Some (VDate 9000)
  ∧ ∃ m' u' upd,
      run (addResetPasswordToken "weir" (VStr "tok") (VDate 5000) None None)
          Fixture.driver = (Resolved VUndefined, m')
      ∧ log m' = (log Fixture.driver
                  ++ [EvStore Users (UpdateOne (by_id "weir") upd)])%list
      ∧ dom (upd_unset upd)
        = ({[ "verificationToken"; "tokenExpirationField" ]} : gset string)
      ∧ users_coll m' = <[2:=u']> (users_coll Fixture.driver)
      ∧ u' !! "verificationTokenExpiration"
        = Fixture.weir !! "verificationTokenExpiration"
      ∧ u' !! "tokenExpirationField" = None.
Proof.
  assert (is_ready Fixture.driver) as Hr by (by split_and!).
  assert (findOne (by_id "weir") (users_coll Fixture.driver) = Some (2, Fixture.weir))
    as Hfind by (vm_compute; reflexivity).
  assert (Fixture.weir !! "verificationTokenExpiration" = Some (VDate 9000))
    as Hexp by (vm_compute; reflexivity).
  exact (conj Hr (conj Hfind (conj Hexp
    (addResetPasswordToken_keeps_verification_expiration Fixture.driver "weir"
       (VStr "tok") (VDate 5000) 2 Fixture.weir Hr Hfind)))).
Defined.

(** ** Addresses and linked accounts *)

(** [find] stops at the first entry whose [value] is the address. *)
Lemma find_email_first email es k i (e : obj) :
  es !! i = Some (VObj e) →
  e !! "value" = Some (VStr email) →
  (∀ j w, j < i → es !! j = Some w →
     ∃ r, w = VObj r ∧ r !! "value" ≠ Some (VStr email)) →
  find_email email es k = inr (Some (k + i, VObj e)).
Proof.
  revert k i. induction es as [|w es IH]; intros k i Hi He Hbefore; [done|].
  destruct i as [|i].
  - injection Hi as ->. cbn [find_email getprop]. unfold prop. rewrite He. cbn.
    rewrite decide_True by done. by rewrite Nat.add_0_r.
  - destruct (Hbefore 0 w) as (r & -> & Hr); [lia|done|].
    cbn [find_email getprop]. rewrite decide_False.
    + rewrite (IH (S k) i); [by rewrite Nat.add_succ_r|done|done|].
      intros j w' Hj Hw'. apply (Hbefore (S j)); [lia|done].
    + unfold prop. destruct (r !! "value") as [x|] eqn:Hx; cbn; [|done].
      intros ->. done.
Qed.

(** C1, amended.  For every stored user whose [emails] has, at position
    [i], its first entry with [value] equal to the address (the entries
    before it being objects with another [value]), and every [data]:
    [assertUserEmailData(id, email, data)] sends one [updateOne] that
    replaces the entry at position [i] by [{ ...entry, ...data }], the
    fields of [data] overriding those of the entry and the other fields
    of the entry being kept; the other entries and the other fields of
    the user are unchanged, except [dateUpdated], set to the store's
    clock. *)
Theorem assertUserEmailData_merges_entry
    m userId email (data : obj) p u es i (e : obj) :
  is_ready m →
  findOne (by_id userId) (users_coll m) = Some (p, u) →
  u !! "emails" = Some (VArr es) →
  es !! i = Some (VObj e) →
  e !! "value" = Some (VStr email) →
  (∀ j w, j < i → es !! j = Some w →
     ∃ r, w = VObj r ∧ r !! "value" ≠ Some (VStr email)) →
  ∃ m' u',
    run (assertUserEmailData userId email (Some data)) m = (Resolved VUndefined, m')
    ∧ log m' = (log m ++
        [EvStore Users (FindOne (by_id userId));
         EvStore Users (UpdateOne (by_id userId)
                          (set_email (Z.of_nat i) (data ∪ e)))])%list
    ∧ users_coll m' = <[p:=u']> (users_coll m)
    ∧ (run (fetchUserById userId) m').1 = Resolved (VObj u')
    ∧ u' !! "emails" = Some (VArr (<[i := VObj (data ∪ e)]> es))
    ∧ (∀ k, (data ∪ e) !! k = match data !! k with
                               | Some x => Some x
                               | None => e !! k
                               end)
    ∧ u' !! "dateUpdated" = Some (VDate (now (wld m)))
    ∧ ∀ k, k ≠ "emails" → k ≠ "dateUpdated" → u' !! k = u !! k.
Proof.
  intros (Hi & Hu & Hc) Hfind Hemails Hentry Hvalue Hbefore.
  unfold assertUserEmailData.
  rewrite run_ready by done.
  rewrite (run_store _ _ _ _ (userTableName (drv m))) by done.
  rewrite perform_findOne.
  cbn [sent with_log with_world wld drv log passed].
  fold (users_coll m). rewrite Hfind.
  cbn [try getprop]. unfold prop. rewrite Hemails. cbn [default from_option id].
  rewrite (find_email_first email es 0 i e) by done.
  cbn [from_option snd fst truthy negb Nat.add].
  rewrite bool_decide_eq_true_2 by eauto.
  set (m1 := sent _ _ _ _).
  change (merged_email_entry (VObj e) (Some data)) with (data ∪ e).
  destruct (run_update_user m1 userId (set_email (Z.of_nat i) (data ∪ e)) p u _
              Hu Hfind
              (apply_set_email _ i (data ∪ e) u es Hemails
                 (lookup_lt_Some _ _ _ Hentry)))
    as (m' & Hrun & Hdrv & Hlog & Hcoll).
  eexists m', _. split_and!; [exact Hrun| |exact Hcoll| | | | |].
  - rewrite Hlog. subst m1. cbn [log sent with_log with_world passed].
    by rewrite <- app_assoc.
  - eapply fetch_updated_user; [|exact Hfind|exact Hcoll|].
    + unfold is_ready. by rewrite Hdrv.
    + by rewrite !lookup_insert_ne by done.
  - by rewrite lookup_insert_ne, lookup_insert_eq by done.
  - intros k. rewrite lookup_union. by destruct (data !! k), (e !! k).
  - by rewrite lookup_insert_eq.
  - intros k ??. by rewrite !lookup_insert_ne by done.
Qed.

Lemma assertUserEmailData_merges_entry_witness :
  is_ready Fixture.driver
  ∧ findOne (by_id "weir") (users_coll Fixture.driver) = Some (2, Fixture.weir)
  ∧ Fixture.weir !! "emails" = Some (VArr [VObj Fixture.weir_email])
  ∧ Fixture.weir_email !! "value" = Some (VStr "weir@atlantis.net")
  ∧ ∃ m' u',
      run (assertUserEmailData "weir" "weir@atlantis.net" (Some Fixture.verified))
          Fixture.driver = (Resolved VUndefined, m')
      ∧ log m' = (log Fixture.driver ++
          [EvStore Users (FindOne (by_id "weir"));
           EvStore Users (UpdateOne (by_id "weir")
              (set_email (Z.of_nat 0) (Fixture.verified ∪ Fixture.weir_email)))])%list
      ∧ users_coll m' = <[2:=u']> (users_coll Fixture.driver)
      ∧ (run (fetchUserById "weir") m').1 = Resolved (VObj u')
      ∧ u' !! "emails"
        = Some (VArr (<[0 := VObj (Fixture.verified ∪ Fixture.weir_email)]>
                        [VObj Fixture.weir_email]))
      ∧ (∀ k, (Fixture.verified ∪ Fixture.weir_email) !! k
              = match Fixture.verified !! k with
                | Some x => Some x
                | None => Fixture.weir_email !! k
                end)
      ∧ u' !! "dateUpdated" = Some (VDate (now (wld Fixture.driver)))
      ∧ ∀ k, k ≠ "emails" → k ≠ "dateUpdated" → u' !! k = Fixture.weir !! k.
Proof.
  assert (is_ready Fixture.driver) as Hr by (by split_and!).
  assert (findOne (by_id "weir") (users_coll Fixture.driver) = Some (2, Fixture.weir))
    as Hfind by (vm_compute; reflexivity).
  assert (Fixture.weir !! "emails" = Some (VArr [VObj Fixture.weir_email]))
    as Hemails by (vm_compute; reflexivity).
  assert (Fixture.weir_email !! "value" = Some (VStr "weir@atlantis.net"))
    as Hvalue by (vm_compute; reflexivity).
  assert (∀ j w, j < 0 → [VObj Fixture.weir_email] !! j = Some w →
            ∃ r : obj, w = VObj r ∧ r !! "value" ≠ Some (VStr "weir@atlantis.net"))
    as Hbefore by (intros j w Hj; lia).
  exact (conj Hr (conj Hfind (conj Hemails (conj Hvalue
    (assertUserEmailData_merges_entry Fixture.driver "weir" "weir@atlantis.net"
       Fixture.verified 2 Fixture.weir [VObj Fixture.weir_email] 0 Fixture.weir_email
       Hr Hfind Hemails eq_refl Hvalue Hbefore))))).
Defined.

(** C1 as stated fails on an entry that carries a field [data] does not
    have: asserting [{ verified: true }] on the address of a user whose
    entry is [{ value, type: "work" }] leaves an entry that still has
    [type], and so is not [{ value: email, ...data }]. *)
Lemma assertUserEmailData_keeps_prior_fields :
  let email := "weir@atlantis.net" in
  let m' := (run (assertUserEmailData "weir" email (Some Fixture.verified))
                 Fixture.driver).2 in
  Fixture.weir !! "emails" = Some (VArr [VObj Fixture.weir_email])
  ∧ Fixture.weir_email !! "value" = Some (VStr email)
  ∧ ∃ (u' entry : obj),
      (run (fetchUserById "weir") m').1 = Resolved (VObj u')
      ∧ u' !! "emails" = Some (VArr [VObj entry])
      ∧ entry !! "type" = Some (VStr "work")
      ∧ new_email_entry email (Some Fixture.verified) !! "type" = None
      ∧ entry ≠ new_email_entry email (Some Fixture.verified).
Proof.
  cbv zeta. split; [vm_compute; reflexivity|]. split; [vm_compute; reflexivity|].
  eexists _, _. split_and!; [vm_compute; reflexivity..|].
  intros Heq. apply (f_equal (fun o : obj => o !! "type")) in Heq.
  vm_compute in Heq. discriminate Heq.
Qed.

(** C2.  For every stored user, [assertUserServiceData(id, service, data)]
    sets the whole [services] field to the mapping with the single entry
    [service ↦ { ...data }] and [dateUpdated] to the store's clock: the
    entry of [service] is [{ ...data }], and no entry is left under any
    other service name ([mapUserToServiceData] gives [undefined] for
    every other name that is not a member of [Object.prototype]). *)
Theorem assertUserServiceData_overwrites_services m userId service data i u :
  is_ready m →
  findOne (by_id userId) (users_coll m) = Some (i, u) →
  ∃ m' u',
    run (assertUserServiceData userId service data) m = (Resolved VUndefined, m')
    ∧ users_coll m' = <[i:=u']> (users_coll m)
    ∧ (run (fetchUserById userId) m').1 = Resolved (VObj u')
    ∧ u' !! "services" = Some (VObj {[ service := VObj data ]})
    ∧ mapUserToServiceData (VObj u') service = Data (VObj data)
    ∧ u' !! "dateUpdated" = Some (VDate (now (wld m)))
    ∧ ∀ other, other ≠ service → inherited other = false →
        mapUserToServiceData (VObj u') other = Data VUndefined.
Proof.
  intros (Hi & Hu & Hc) Hfind. unfold assertUserServiceData.
  rewrite run_ready by done.
  destruct (run_update_user (passed m) userId _ i u _ Hu Hfind
              (apply_set_services _ service data u))
    as (m' & Hrun & Hdrv & Hlog & Hcoll).
  eexists m', _. split_and!; [exact Hrun|exact Hcoll| | | | |].
  - eapply fetch_updated_user; [|exact Hfind|exact Hcoll|].
    + unfold is_ready. by rewrite Hdrv.
    + by rewrite !lookup_insert_ne by done.
  - by rewrite lookup_insert_ne, lookup_insert_eq by done.
  - unfold mapUserToServiceData, prop.
    rewrite lookup_insert_ne, lookup_insert_eq by done.
    cbn [default from_option id truthy member]. by rewrite lookup_singleton_eq.
  - by rewrite lookup_insert_eq.
  - intros other Hne Hown. unfold mapUserToServiceData, prop.
    rewrite lookup_insert_ne, lookup_insert_eq by done.
    cbn [default from_option id truthy member].
    by rewrite lookup_singleton_ne, Hown.
Qed.

Lemma assertUserServiceData_overwrites_services_witness :
  is_ready Fixture.driver
  ∧ findOne (by_id "sheppard") (users_coll Fixture.driver)
    = Some (0, Fixture.sheppard)
  ∧ mapUserToServiceData (VObj Fixture.sheppard) "facebook"
    = Data (VObj {[ "id" := VStr "1" ]})
  ∧ ∃ m' u',
      run (assertUserServiceData "sheppard" "google" {[ "id" := VStr "5" ]})
          Fixture.driver = (Resolved VUndefined, m')
      ∧ (run (fetchUserById "sheppard") m').1 = Resolved (VObj u')
      ∧ u' !! "services" = Some (VObj {[ "google" := VObj {[ "id" := VStr "5" ]} ]})
      ∧ mapUserToServiceData (VObj u') "google" = Data (VObj {[ "id" := VStr "5" ]})
      ∧ mapUserToServiceData (VObj u') "facebook" = Data VUndefined.
Proof.
  assert (is_ready Fixture.driver) as Hr by (by split_and!).
  assert (findOne (by_id "sheppard") (users_coll Fixture.driver)
          = Some (0, Fixture.sheppard)) as Hfind by (vm_compute; reflexivity).
  assert (mapUserToServiceData (VObj Fixture.sheppard) "facebook"
          = Data (VObj {[ "id" := VStr "1" ]})) as Hfb by (vm_compute; reflexivity).
  destruct (assertUserServiceData_overwrites_services Fixture.driver "sheppard"
              "google" {[ "id" := VStr "5" ]} 0 Fixture.sheppard Hr Hfind)
    as (m' & u' & Hrun & _ & Hfetch & Hservices & Hgoogle & _ & Hother).
  refine (conj Hr (conj Hfind (conj Hfb _))).
  exists m', u'.
  exact (conj Hrun (conj Hfetch (conj Hservices (conj Hgoogle
           (Hother "facebook" ltac:(discriminate) eq_refl))))).
Defined.

(** * Further properties *)

(** ** Construction and the gate *)

(** X1.  Unless [init: false] is given, the constructor leaves the driver
    ready at once: [_init] has no [await], so it has run to its end when
    the constructor returns.  The table names are the options given, or
    ['users'] and ['apolloPassportConfig'] when an option is missing or
    empty; nothing is queued and nothing has been sent to the store. *)
Theorem constructor_is_ready db o :
  opt_init o ≠ Some false →
  let m := constructor db o in
  is_ready m
  ∧ readySubs (drv m) = []
  ∧ userTableName (drv m) = or_default (opt_userTableName o) "users"
  ∧ configTableName (drv m) = or_default (opt_configTableName o) "apolloPassportConfig"
  ∧ userTableName (drv m) ≠ EmptyString
  ∧ configTableName (drv m) ≠ EmptyString
  ∧ wld m = db ∧ log m = [].
Proof.
  intros Hinit. unfold constructor.
  assert (∀ s d, d ≠ EmptyString → or_default s d ≠ EmptyString) as Hne.
  { intros [s|] d Hd; cbn; [|done]. destruct (String.eqb s EmptyString) eqn:E; [done|].
    by apply String.eqb_neq in E. }
  destruct (opt_init o) as [[]|]; try done; cbn; split_and!; try done; by apply Hne.
Qed.

Lemma constructor_is_ready_witness :
  opt_init More.personnel ≠ Some false
  ∧ userTableName (drv (constructor Fixture.ticking More.personnel)) = "personnel"
  ∧ configTableName (drv (constructor Fixture.ticking More.personnel))
    = "apolloPassportConfig"
  ∧ is_ready (constructor Fixture.ticking More.personnel).
Proof.
  assert (opt_init More.personnel ≠ Some false) as H by discriminate.
  destruct (constructor_is_ready Fixture.ticking More.personnel H)
    as (Hr & _ & Hu & Hc & _).
  exact (conj H (conj Hu (conj Hc Hr))).
Defined.

(** X2.  On a driver built with [init: false], a method that starts with
    [await this._ready()] suspends on the first gate promise: that
    promise is queued and pending, and nothing has been sent to the
    store.  Resuming it before [_init] leaves it suspended; once [_init]
    has run, the driver is ready, the promise is resolved and the method
    continues from its [await]. *)
Theorem method_before_init_waits db o c :
  opt_init o = Some false →
  gated c = true →
  ∃ k m',
    run c (constructor db o) = (Awaiting 0 k, m')
    ∧ readySubs (drv m') = [0]
    ∧ resolved m' = []
    ∧ wld m' = db ∧ log m' = []
    ∧ is_ready (_init m')
    ∧ resolved (_init m') = [0]
    ∧ resume (Awaiting 0 k) m' = (Awaiting 0 k, m')
    ∧ resume (Awaiting 0 k) (_init m') = run k (_init m').
Proof.
  intros Ho Hc. unfold constructor. rewrite Ho.
  destruct c; try done. cbn [run _ready drv initted nextPromise].
  eexists _, _. split; [reflexivity|]. split_and!; try done.
Qed.

Lemma method_before_init_waits_witness :
  opt_init init_false = Some false
  ∧ gated (fetchUserById "weir") = true
  ∧ ∃ k m',
      run (fetchUserById "weir") (constructor Fixture.ticking init_false)
        = (Awaiting 0 k, m')
      ∧ log m' = []
      ∧ (resume (Awaiting 0 k) (_init m')).1 = Resolved (VObj Fixture.weir).
Proof.
  destruct (method_before_init_waits Fixture.ticking init_false
              (fetchUserById "weir") eq_refl eq_refl)
    as (k & m' & Hrun & _ & _ & _ & Hlog & _ & _ & _ & Hres).
  refine (conj eq_refl (conj eq_refl _)).
  exists k, m'. refine (conj Hrun (conj Hlog _)).
  rewrite Hres. injection Hrun as <- <-. by_vm.
Defined.

(** ** Reading *)

(** X3.  On a ready driver each of [fetchConfig] (over a stored
    configuration that is plain), [fetchUserById], [fetchUserByEmail] and
    [fetchUserByServiceIdOrEmail] resolves (it never rejects), sends
    exactly one request, a find, and leaves the database as it was. *)
Theorem readers_leave_store_unchanged r m :
  is_ready m →
  (∀ dateToString, r = ReadConfig dateToString →
     forallb (plain_row dateToString) (config_coll m) = true) →
  ∃ v m',
    run (reader_prog r) m = (Resolved v, m')
    ∧ wld m' = wld m
    ∧ drv m' = drv m
    ∧ log m' = (log m ++ [reader_request r])%list.
Proof.
  intros (Hi & Hu & Hc) Hplain.
  destruct r; cbn [reader_prog reader_request].
  - unfold fetchConfig. rewrite run_ready by done.
    rewrite (run_store _ _ _ _ (configTableName (drv m))) by done.
    cbn [perform passed wld]. fold (config_coll m).
    destruct (file_rows_app dateToString ∅ (config_coll m) ∅
                (Hplain dateToString eq_refl)) as (out & -> & _).
    cbn [run]. by eexists _, _.
  - unfold fetchUserById. rewrite run_ready by done.
    rewrite (run_store _ _ _ _ (userTableName (drv m))) by done.
    rewrite perform_findOne. cbn [run]. by eexists _, _.
  - unfold fetchUserByEmail. rewrite run_ready by done.
    rewrite (run_store _ _ _ _ (userTableName (drv m))) by done.
    rewrite perform_findOne. cbn [run]. by eexists _, _.
  - unfold fetchUserByServiceIdOrEmail. rewrite run_ready by done.
    rewrite (run_store _ _ _ _ (userTableName (drv m))) by done.
    rewrite perform_findOne. cbn [run]. by eexists _, _.
Qed.

Lemma readers_leave_store_unchanged_witness :
  is_ready More.configured
  ∧ forallb (plain_row Fixture.dateToString) (config_coll More.configured) = true
  ∧ ∃ v m',
      run (reader_prog (ReadConfig Fixture.dateToString)) More.configured
        = (Resolved v, m')
      ∧ wld m' = wld More.configured
      ∧ drv m' = drv More.configured
      ∧ log m' = (log More.configured
                  ++ [reader_request (ReadConfig Fixture.dateToString)])%list.
Proof.
  assert (is_ready More.configured) as Hr by (repeat split; by_vm).
  assert (forallb (plain_row Fixture.dateToString) (config_coll More.configured)
          = true) as Hplain by by_vm.
  refine (conj Hr (conj Hplain _)).
  apply (readers_leave_store_unchanged (ReadConfig Fixture.dateToString)
           More.configured Hr).
  intros d Heq. injection Heq as <-. exact Hplain.
Defined.

(** X4.  On a ready driver whose stored users follow the data model,
    [fetchUserById(id)] returns a stored record whose [_id] is [id], and
    [null] exactly when no stored record has that [_id];
    [fetchUserByEmail(email)] returns a stored record with an entry of
    [emails] whose [value] is [email], and [null] exactly when no stored
    record has one. *)
Theorem fetch_by_id_or_email_finds m userId email :
  is_ready m →
  forallb user_record (users_coll m) = true →
  (∃ r, (run (fetchUserById userId) m).1 = Resolved r
        ∧ ((∃ u, r = VObj u ∧ u ∈ users_coll m ∧ u !! "_id" = Some (VStr userId))
           ∨ (r = VNull
              ∧ existsb (fun u => bool_decide (u !! "_id" = Some (VStr userId)))
                  (users_coll m) = false)))
  ∧ (∃ r, (run (fetchUserByEmail email) m).1 = Resolved r
        ∧ ((∃ u, r = VObj u ∧ u ∈ users_coll m ∧ has_email email u = true)
           ∨ (r = VNull ∧ existsb (has_email email) (users_coll m) = false))).
Proof.
  intros Hr Hwf. rewrite forallb_forall in Hwf. split.
  - destruct (run_fetchUserById userId m Hr) as (m' & -> & _).
    eexists. split; [reflexivity|].
    pose proof (findOne_agree (by_id userId)
                  (fun u => bool_decide (u !! "_id" = Some (VStr userId)))
                  (users_coll m)) as Hfind.
    destruct (findOne _ _) as [[i u]|].
    + destruct Hfind as [Hin Hu].
      { intros u' Hin. by apply matches_id, Hwf, list_elem_of_In. }
      left. exists u. split_and!; try done. by apply bool_decide_eq_true in Hu.
    + right. split; [done|]. apply Hfind.
      intros u' Hin. by apply matches_id, Hwf, list_elem_of_In.
  - unfold fetchUserByEmail. rewrite run_ready by apply Hr.
    destruct (run_find_or_null m (by_email email) Hr) as (m' & ->).
    eexists. split; [reflexivity|].
    pose proof (findOne_agree (by_email email) (has_email email) (users_coll m))
      as Hfind.
    destruct (findOne _ _) as [[i u]|].
    + destruct Hfind as [Hin Hu].
      { intros u' Hin. by apply matches_by_email, Hwf, list_elem_of_In. }
      left. eauto.
    + right. split; [done|]. apply Hfind.
      intros u' Hin. by apply matches_by_email, Hwf, list_elem_of_In.
Qed.

Lemma fetch_by_id_or_email_finds_witness :
  is_ready Fixture.driver
  ∧ forallb user_record (users_coll Fixture.driver) = true
  ∧ (∃ r, (run (fetchUserById "sheppard") Fixture.driver).1 = Resolved r
        ∧ ((∃ u, r = VObj u ∧ u ∈ users_coll Fixture.driver
                 ∧ u !! "_id" = Some (VStr "sheppard"))
           ∨ (r = VNull
              ∧ existsb (fun u => bool_decide (u !! "_id" = Some (VStr "sheppard")))
                  (users_coll Fixture.driver) = false)))
  ∧ ∃ r, (run (fetchUserByEmail "mckay@atlantis.net") Fixture.driver).1 = Resolved r
       ∧ ((∃ u, r = VObj u ∧ u ∈ users_coll Fixture.driver
                ∧ has_email "mckay@atlantis.net" u = true)
          ∨ (r = VNull
             ∧ existsb (has_email "mckay@atlantis.net")
                 (users_coll Fixture.driver) = false)).
Proof.
  assert (is_ready Fixture.driver) as Hr by (repeat split; by_vm).
  assert (forallb user_record (users_coll Fixture.driver) = true) as Hwf by by_vm.
  exact (conj Hr (conj Hwf
    (fetch_by_id_or_email_finds Fixture.driver "sheppard" "mckay@atlantis.net"
       Hr Hwf))).
Defined.

(** X5.  [mapUserToServiceData] never throws.  For a user whose
    [services[service].id] is [id] it returns that service record; for a
    user without [services] it returns [undefined]; for a user whose
    [services] has no entry of its own for the name it returns
    [undefined] when the name is not a member of [Object.prototype], and
    otherwise that built-in member, never [undefined]; for [null] or
    [undefined] it returns that value. *)
Theorem mapUserToServiceData_projects service id (u : obj) :
  (has_service_id service id u = true →
     ∃ r : obj, mapUserToServiceData (VObj u) service = Data (VObj r)
                ∧ r !! "id" = Some (VStr id))
  ∧ (u !! "services" = None →
       mapUserToServiceData (VObj u) service = Data VUndefined)
  ∧ (∀ ss : obj, u !! "services" = Some (VObj ss) → ss !! service = None →
       mapUserToServiceData (VObj u) service
       = if inherited service then Builtin service else Data VUndefined)
  ∧ mapUserToServiceData VNull service = Data VNull
  ∧ mapUserToServiceData VUndefined service = Data VUndefined.
Proof.
  unfold mapUserToServiceData, has_service_id, prop. split_and!; try done.
  - destruct (u !! "services") as [[]|]; try done.
    destruct (o !! service) as [[]|] eqn:Hs; try done.
    intros Hid%bool_decide_eq_true. cbn. rewrite Hs. eauto.
  - by intros ->.
  - intros ss -> Hs. cbn. by rewrite Hs.
Qed.

Lemma mapUserToServiceData_projects_witness :
  has_service_id "facebook" "1" Fixture.sheppard = true
  ∧ (∃ r : obj,
       mapUserToServiceData (VObj Fixture.sheppard) "facebook" = Data (VObj r)
       ∧ r !! "id" = Some (VStr "1"))
  ∧ mapUserToServiceData (VObj Fixture.sheppard) "google" = Data VUndefined
  ∧ mapUserToServiceData (VObj Fixture.sheppard) "constructor"
    = Builtin "constructor".
Proof.
  assert (has_service_id "facebook" "1" Fixture.sheppard = true) as H by by_vm.
  destruct (mapUserToServiceData_projects "facebook" "1" Fixture.sheppard)
    as [Hp _].
  destruct (mapUserToServiceData_projects "google" "1" Fixture.sheppard)
    as (_ & _ & Hg & _).
  destruct (mapUserToServiceData_projects "constructor" "1" Fixture.sheppard)
    as (_ & _ & Hc & _).
  refine (conj H (conj (Hp H) (conj _ _))).
  - exact (Hg {[ "facebook" := VObj {[ "id" := VStr "1" ]} ]} eq_refl eq_refl).
  - exact (Hc {[ "facebook" := VObj {[ "id" := VStr "1" ]} ]} eq_refl eq_refl).
Defined.

(** ** Updates of a user that is not stored *)

Lemma perform_updateOne_none name q u w :
  findOne q (collection w name) = None →
  perform name (UpdateOne q u) w = (inr (write_result 0), w).
Proof. intros Hf. unfold perform. by rewrite Hf. Qed.

Lemma run_update_missing m userId upd k :
  users (drv m) = Some (userTableName (drv m)) →
  findOne (by_id userId) (users_coll m) = None →
  run (Store Users (UpdateOne (by_id userId) upd) k) m
  = run (k (write_result 0))
        (sent Users (UpdateOne (by_id userId) upd) (wld m) m).
Proof.
  intros Hu Hfind.
  rewrite (run_store _ _ _ _ (userTableName (drv m))) by done.
  by rewrite perform_updateOne_none.
Qed.

(** X6.  When no stored user has the id, [updateUser] (with a patch that
    is not empty, whose field names are top-level names, [dateUpdated]
    not among them) still resolves to [1], the acknowledgement's [ok],
    and [verifyUserAccount], [addResetPasswordToken] and
    [assertUserServiceData] resolve to [undefined]: none of them changes
    the database or reports the miss.  [assertUserEmailData] rejects with
    a [TypeError], having read [emails] of [null], after its [findOne]
    and before any update. *)
Theorem updates_of_missing_user_do_nothing
    m userId patch token tokenExpiration service data email emailData :
  is_ready m →
  findOne (by_id userId) (users_coll m) = None →
  (patch ≠ ∅ →
   (∀ k, is_Some (patch !! k) → valid_key k = true) →
   patch !! "dateUpdated" = None →
   ∃ m', run (updateUser userId patch) m = (Resolved (VNum 1), m')
         ∧ wld m' = wld m)
  ∧ (∃ m', run (verifyUserAccount userId None None None) m = (Resolved VUndefined, m')
           ∧ wld m' = wld m)
  ∧ (∃ m', run (addResetPasswordToken userId token tokenExpiration None None) m
             = (Resolved VUndefined, m')
           ∧ wld m' = wld m)
  ∧ (∃ m', run (assertUserServiceData userId service data) m
             = (Resolved VUndefined, m')
           ∧ wld m' = wld m)
  ∧ (∃ e m', run (assertUserEmailData userId email emailData) m
               = (Rejected (TypeError e), m')
             ∧ wld m' = wld m
             ∧ log m' = (log m ++ [EvStore Users (FindOne (by_id userId))])%list).
Proof.
  intros (Hi & Hu & Hc) Hfind. split_and!.
  - intros _ _ _. unfold updateUser. rewrite run_ready by done.
    rewrite run_update_missing by done. by eexists.
  - unfold verifyUserAccount. rewrite run_ready by done.
    rewrite (run_store _ _ _ _ (userTableName (drv m))) by done.
    rewrite perform_findOne. rewrite run_update_missing by done. by eexists.
  - unfold addResetPasswordToken. rewrite run_update_missing by done. by eexists.
  - unfold assertUserServiceData. rewrite run_ready by done.
    rewrite run_update_missing by done. by eexists.
  - unfold assertUserEmailData. rewrite run_ready by done.
    rewrite (run_store _ _ _ _ (userTableName (drv m))) by done.
    rewrite perform_findOne. cbn [passed wld drv]. fold (users_coll m).
    rewrite Hfind. cbn [try getprop run]. by eexists _, _.
Qed.

Lemma updates_of_missing_user_do_nothing_witness :
  is_ready Fixture.driver
  ∧ findOne (by_id "todd") (users_coll Fixture.driver) = None
  ∧ More.rodney ≠ ∅
  ∧ (∀ k, is_Some (More.rodney !! k) → valid_key k = true)
  ∧ More.rodney !! "dateUpdated" = None
  ∧ (∃ m', run (updateUser "todd" More.rodney) Fixture.driver
           = (Resolved (VNum 1), m')
           ∧ wld m' = wld Fixture.driver)
  ∧ (∃ e m', run (assertUserEmailData "todd" "todd@hive" None) Fixture.driver
             = (Rejected (TypeError e), m')
             ∧ wld m' = wld Fixture.driver
             ∧ log m' = (log Fixture.driver
                         ++ [EvStore Users (FindOne (by_id "todd"))])%list).
Proof.
  assert (is_ready Fixture.driver) as Hr by (repeat split; by_vm).
  assert (findOne (by_id "todd") (users_coll Fixture.driver) = None) as Hfind
    by by_vm.
  assert (More.rodney ≠ ∅) as Hne.
  { intros Heq. apply (f_equal (lookup "name")) in Heq. discriminate Heq. }
  assert (∀ k, is_Some (More.rodney !! k) → valid_key k = true) as Hkeys.
  { intros k [x Hx]. unfold More.rodney in Hx.
    apply lookup_singleton_Some in Hx as [<- _]. reflexivity. }
  assert (More.rodney !! "dateUpdated" = None) as Hd by by_vm.
  destruct (updates_of_missing_user_do_nothing Fixture.driver "todd"
              More.rodney VNull VNull "facebook" ∅ "todd@hive" None
              Hr Hfind) as (Hupd & _ & _ & _ & Hemail).
  exact (conj Hr (conj Hfind (conj Hne (conj Hkeys (conj Hd
           (conj (Hupd Hne Hkeys Hd) Hemail)))))).
Defined.

(** X7.  On a stored user whose [emails] is not an array (a user created
    without one, say), [assertUserEmailData] rejects with a [TypeError]
    after its [findOne]: it sends no update and the database is
    unchanged. *)
Theorem assertUserEmailData_needs_emails_array m userId email data i u :
  is_ready m →
  findOne (by_id userId) (users_coll m) = Some (i, u) →
  (∀ es, u !! "emails" ≠ Some (VArr es)) →
  ∃ e m',
    run (assertUserEmailData userId email data) m = (Rejected (TypeError e), m')
    ∧ wld m' = wld m
    ∧ log m' = (log m ++ [EvStore Users (FindOne (by_id userId))])%list.
Proof.
  intros (Hi & Hu & Hc) Hfind Hno. unfold assertUserEmailData.
  rewrite run_ready by done.
  rewrite (run_store _ _ _ _ (userTableName (drv m))) by done.
  rewrite perform_findOne. cbn [passed wld drv]. fold (users_coll m).
  rewrite Hfind. cbn [try getprop]. unfold prop.
  destruct (u !! "emails") as [[]|] eqn:He; cbn [default from_option id try run];
    try by eexists _, _.
  by destruct (Hno l).
Qed.

Lemma assertUserEmailData_needs_emails_array_witness :
  is_ready More.with_teyla
  ∧ findOne (by_id "teyla") (users_coll More.with_teyla)
    = Some (3, stamped (wld Fixture.driver) More.teyla)
  ∧ (∀ es, stamped (wld Fixture.driver) More.teyla !! "emails" ≠ Some (VArr es))
  ∧ ∃ e m',
      run (assertUserEmailData "teyla" "teyla@athos" None) More.with_teyla
        = (Rejected (TypeError e), m')
      ∧ wld m' = wld More.with_teyla
      ∧ log m' = (log More.with_teyla
                  ++ [EvStore Users (FindOne (by_id "teyla"))])%list.
Proof.
  assert (is_ready More.with_teyla) as Hr by (repeat split; by_vm).
  assert (findOne (by_id "teyla") (users_coll More.with_teyla)
          = Some (3, stamped (wld Fixture.driver) More.teyla)) as Hfind by by_vm.
  assert (stamped (wld Fixture.driver) More.teyla !! "emails" = None) as He by by_vm.
  assert (∀ es, stamped (wld Fixture.driver) More.teyla !! "emails" ≠ Some (VArr es))
    as Hno by (intros es; rewrite He; discriminate).
  exact (conj Hr (conj Hfind (conj Hno
    (assertUserEmailData_needs_emails_array More.with_teyla "teyla" "teyla@athos"
       None 3 _ Hr Hfind Hno)))).
Defined.

(** ** Creating a user *)

Lemma findOne_none_no_key userId (coll : list obj) :
  findOne (by_id userId) coll = None →
  existsb (fun e => bool_decide (e !! "_id" = Some (VStr userId))) coll = false.
Proof.
  unfold findOne. rewrite list_find_None, Forall_forall. intros Hno.
  apply not_true_iff_false. intros (e & Hin & He)%existsb_exists.
  apply list_elem_of_In in Hin. apply bool_decide_eq_true in He.
  apply (Hno e Hin). rewrite matches_by_id, He. cbn. by apply bool_decide_eq_true.
Qed.

Lemma findOne_app_new userId (coll : list obj) (d : obj) :
  findOne (by_id userId) coll = None →
  d !! "_id" = Some (VStr userId) →
  findOne (by_id userId) (coll ++ [d]) = Some (length coll, d).
Proof.
  unfold findOne. rewrite list_find_None, Forall_forall. intros Hno Hd.
  apply list_find_Some. split_and!.
  - by rewrite lookup_app_r, Nat.sub_diag by lia.
  - rewrite matches_by_id, Hd. cbn. by apply bool_decide_eq_true.
  - intros j y Hj Hlt. rewrite lookup_app_l in Hj by done.
    apply Hno. by eapply list_elem_of_lookup_2.
Qed.

Lemma stamped_id w user : stamped w user !! "_id" = user !! "_id".
Proof. unfold stamped. by rewrite !lookup_insert_ne by done. Qed.

Lemma run_insert_user m (user : obj) userId v :
  is_ready m →
  user !! "_id" = Some (VStr userId) →
  findOne (by_id userId) (users_coll m) = None →
  ∃ m',
    run (Store Users (InsertOne user) (fun _ => Ret v)) m = (Resolved v, m')
    ∧ is_ready m'
    ∧ users_coll m' = (users_coll m ++ [user])%list
    ∧ (run (fetchUserById userId) m').1 = Resolved (VObj user).
Proof.
  intros (Hi & Hu & Hc) Hid Hfind.
  rewrite (run_store _ _ _ _ (userTableName (drv m))) by done.
  cbn [perform]. rewrite Hid. fold (users_coll m).
  rewrite (findOne_none_no_key _ _ Hfind). cbn [run].
  eexists. split; [reflexivity|].
  assert (users_coll (sent Users (InsertOne user)
            (set_collection (userTableName (drv m)) (users_coll m ++ [user]) (wld m)) m)
          = (users_coll m ++ [user])%list) as Hcoll.
  { unfold users_coll at 1; cbn. by rewrite collection_set. }
  split_and!; try done.
  match goal with |- (run _ ?m').1 = _ =>
    destruct (run_fetchUserById userId m') as (m'' & -> & _); [done|] end.
  cbn [fst]. rewrite Hcoll. by erewrite findOne_app_new.
Qed.

Lemma run_newDate k m :
  run (NewDate k) m = run (k (now (wld m))) (with_world (tick (wld m)) m).
Proof. reflexivity. Qed.

Lemma run_newObjectId k m :
  run (NewObjectId k) m = run (k (fresh_id (wld m))) (with_world (issue (wld m)) m).
Proof. reflexivity. Qed.

(** X8.  For a user that comes with a non-empty string [_id] not yet
    stored, [createUser] returns that [_id] and appends the record: the
    fields of the caller as they are, plus [dateUpdated], [dateAdded] and
    [dateRegistered].  [fetchUserById] of the returned id then returns
    the stored record. *)
Theorem createUser_round_trip m (user : obj) userId :
  is_ready m →
  user !! "_id" = Some (VStr userId) →
  userId ≠ EmptyString →
  findOne (by_id userId) (users_coll m) = None →
  ∃ m',
    run (createUser user) m = (Resolved (VStr userId), m')
    ∧ users_coll m' = (users_coll m ++ [stamped (wld m) user])%list
    ∧ (run (fetchUserById userId) m').1 = Resolved (VObj (stamped (wld m) user))
    ∧ (∀ k, k ∉ ["dateUpdated"; "dateAdded"; "dateRegistered"] →
         stamped (wld m) user !! k = user !! k).
Proof.
  intros Hr Hid Hne Hfind. pose proof Hr as (Hi & Hu & Hc).
  unfold createUser. rewrite run_ready by done.
  unfold prop at 1. rewrite Hid. cbn [default from_option id truthy negb].
  replace (String.eqb userId EmptyString) with false
    by (symmetry; by apply String.eqb_neq).
  cbn [negb]. rewrite !run_newDate.
  cbn [now tick wld with_world clock ticks passed].
  change (<["dateRegistered" := _]> _) with (stamped (wld m) user).
  unfold prop. rewrite stamped_id, Hid. cbn [default from_option].
  match goal with |- ∃ m', run _ ?m1 = _ ∧ _ =>
    destruct (run_insert_user m1 (stamped (wld m) user) userId (VStr userId))
      as (m' & Hrun & Hr' & Hcoll & Hfetch) end; [done|by rewrite stamped_id|done|].
  exists m'. split_and!; try done.
  intros k Hk. rewrite !not_elem_of_cons in Hk. destruct Hk as (?&?&?&_).
  unfold stamped. by rewrite !lookup_insert_ne by done.
Qed.

Lemma createUser_round_trip_witness :
  is_ready Fixture.driver
  ∧ More.teyla !! "_id" = Some (VStr "teyla")
  ∧ "teyla" ≠ EmptyString
  ∧ findOne (by_id "teyla") (users_coll Fixture.driver) = None
  ∧ ∃ m',
      run (createUser More.teyla) Fixture.driver = (Resolved (VStr "teyla"), m')
      ∧ users_coll m'
        = (users_coll Fixture.driver
           ++ [stamped (wld Fixture.driver) More.teyla])%list
      ∧ (run (fetchUserById "teyla") m').1
        = Resolved (VObj (stamped (wld Fixture.driver) More.teyla))
      ∧ (∀ k, k ∉ ["dateUpdated"; "dateAdded"; "dateRegistered"] →
           stamped (wld Fixture.driver) More.teyla !! k = More.teyla !! k).
Proof.
  assert (is_ready Fixture.driver) as Hr by (repeat split; by_vm).
  assert (More.teyla !! "_id" = Some (VStr "teyla")) as Hid by by_vm.
  assert ("teyla" ≠ EmptyString) as Hne by discriminate.
  assert (findOne (by_id "teyla") (users_coll Fixture.driver) = None) as Hfind
    by by_vm.
  exact (conj Hr (conj Hid (conj Hne (conj Hfind
    (createUser_round_trip Fixture.driver More.teyla "teyla" Hr Hid Hne Hfind))))).
Defined.

(** X9.  For a user whose [_id] is missing or falsy, [createUser] takes a
    fresh identifier, stores the record under it and returns it, provided
    the identifier is not yet stored; [fetchUserById] of the returned id
    then returns the stored record, whose other fields are the caller's
    plus the three dates. *)
Theorem createUser_generates_id m (user : obj) :
  is_ready m →
  truthy (prop user "_id") = false →
  findOne (by_id (fresh_id (wld m))) (users_coll m) = None →
  let oid := fresh_id (wld m) in
  let stored := stamped (wld m) (<["_id" := VStr oid]> user) in
  ∃ m',
    run (createUser user) m = (Resolved (VStr oid), m')
    ∧ users_coll m' = (users_coll m ++ [stored])%list
    ∧ (run (fetchUserById oid) m').1 = Resolved (VObj stored)
    ∧ issued (wld m') = S (issued (wld m))
    ∧ (∀ k, k ∉ ["_id"; "dateUpdated"; "dateAdded"; "dateRegistered"] →
         stored !! k = user !! k).
Proof.
  intros Hr Hfalsy Hfind oid stored. pose proof Hr as (Hi & Hu & Hc).
  unfold createUser. rewrite run_ready by done.
  rewrite Hfalsy. cbn [negb]. rewrite run_newObjectId, !run_newDate.
  cbn [now tick issue wld with_world clock ticks passed].
  fold oid.
  change (<["dateRegistered" := _]> _) with stored.
  assert (stored !! "_id" = Some (VStr oid)) as Hid.
  { unfold stored. by rewrite stamped_id, lookup_insert_eq. }
  unfold prop. rewrite Hid. cbn [default from_option].
  match goal with |- ∃ m', run _ ?m1 = _ ∧ _ =>
    destruct (run_insert_user m1 stored oid (VStr oid))
      as (m' & Hrun & Hr' & Hcoll & Hfetch) end; [done|done|done|].
  exists m'. split_and!; try done.
  - apply (f_equal (fun p => issued (wld p.2))) in Hrun. cbn [snd] in Hrun.
    rewrite <- Hrun.
    rewrite (run_store _ _ _ _ (userTableName (drv m))) by done.
    cbn [perform wld with_world]. rewrite Hid.
    by destruct (existsb _ _).
  - intros k Hk. rewrite !not_elem_of_cons in Hk. destruct Hk as (?&?&?&?&_).
    unfold stored, stamped. by rewrite !lookup_insert_ne by done.
Qed.

Lemma createUser_generates_id_witness :
  is_ready Fixture.driver
  ∧ truthy (prop More.john "_id") = false
  ∧ findOne (by_id (fresh_id (wld Fixture.driver))) (users_coll Fixture.driver)
    = None
  ∧ fresh_id (wld Fixture.driver) = "oid0"
  ∧ ∃ m',
      run (createUser More.john) Fixture.driver
        = (Resolved (VStr (fresh_id (wld Fixture.driver))), m')
      ∧ (run (fetchUserById (fresh_id (wld Fixture.driver))) m').1
        = Resolved (VObj (stamped (wld Fixture.driver)
                            (<["_id" := VStr (fresh_id (wld Fixture.driver))]>
                               More.john))).
Proof.
  assert (is_ready Fixture.driver) as Hr by (repeat split; by_vm).
  assert (truthy (prop More.john "_id") = false) as Hf by by_vm.
  assert (findOne (by_id (fresh_id (wld Fixture.driver))) (users_coll Fixture.driver)
          = None) as Hfind by by_vm.
  assert (fresh_id (wld Fixture.driver) = "oid0") as Hoid by by_vm.
  destruct (createUser_generates_id Fixture.driver More.john Hr Hf Hfind)
    as (m' & Hrun & _ & Hfetch & _).
  refine (conj Hr (conj Hf (conj Hfind (conj Hoid _)))).
  exists m'. exact (conj Hrun Hfetch).
Defined.

(** X10.  [createUser] of a user whose [_id] is already stored is
    rejected by the store, and the collection is unchanged. *)
Theorem createUser_duplicate_rejected m (user : obj) userId :
  is_ready m →
  user !! "_id" = Some (VStr userId) →
  userId ≠ EmptyString →
  existsb (fun e => bool_decide (e !! "_id" = Some (VStr userId))) (users_coll m)
    = true →
  ∃ e m',
    run (createUser user) m = (Rejected (MongoError e), m')
    ∧ users_coll m' = users_coll m.
Proof.
  intros (Hi & Hu & Hc) Hid Hne Hdup.
  unfold createUser. rewrite run_ready by done.
  unfold prop at 1. rewrite Hid. cbn [default from_option id truthy negb].
  replace (String.eqb userId EmptyString) with false
    by (symmetry; by apply String.eqb_neq).
  cbn [negb]. rewrite !run_newDate.
  cbn [now tick wld with_world clock ticks passed].
  change (<["dateRegistered" := _]> _) with (stamped (wld m) user).
  rewrite (run_store _ _ _ _ (userTableName (drv m))) by done.
  cbn [perform wld with_world]. rewrite stamped_id, Hid.
  change (collection _ (userTableName (drv m))) with (users_coll m).
  rewrite Hdup. by eexists _, _.
Qed.

Lemma createUser_duplicate_rejected_witness :
  is_ready Fixture.driver
  ∧ Fixture.mckay !! "_id" = Some (VStr "mckay")
  ∧ "mckay" ≠ EmptyString
  ∧ existsb (fun e => bool_decide (e !! "_id" = Some (VStr "mckay")))
      (users_coll Fixture.driver) = true
  ∧ ∃ e m',
      run (createUser Fixture.mckay) Fixture.driver = (Rejected (MongoError e), m')
      ∧ users_coll m' = users_coll Fixture.driver.
Proof.
  assert (is_ready Fixture.driver) as Hr by (repeat split; by_vm).
  assert (Fixture.mckay !! "_id" = Some (VStr "mckay")) as Hid by by_vm.
  assert ("mckay" ≠ EmptyString) as Hne by discriminate.
  assert (existsb (fun e => bool_decide (e !! "_id" = Some (VStr "mckay")))
            (users_coll Fixture.driver) = true) as Hdup by by_vm.
  exact (conj Hr (conj Hid (conj Hne (conj Hdup
    (createUser_duplicate_rejected Fixture.driver Fixture.mckay "mckay"
       Hr Hid Hne Hdup))))).
Defined.

(** ** Updating a user *)

Lemma valid_key_nonempty k : valid_key k = true → String.eqb k EmptyString = false.
Proof. unfold valid_key. intros [H _]%andb_true_iff. by apply negb_true_iff. Qed.

(** [$set] over top-level field names overrides those fields. *)

Lemma fold_set_top (l : list (string * value)) (u : obj) :
  Forall (fun kx => valid_key kx.1 = true) l →
  foldr (fun kx acc => acc ≫= set_path (split_dots kx.1) kx.2) (Some (VObj u)) l
  = Some (VObj (list_to_map l ∪ u)).
Proof.
  induction 1 as [|[k x] l Hk Hl IH]; cbn [foldr list_to_map].
  - by rewrite (left_id_L ∅ (∪)).
  - rewrite IH. cbn [fst snd mbind option_bind].
    rewrite split_dots_dotfree by by apply valid_key_dotfree.
    by rewrite set_top, insert_union_l.
Qed.

Lemma fold_set_patch (patch u : obj) :
  (∀ k, is_Some (patch !! k) → valid_key k = true) →
  fold_paths set_path patch (VObj u) = Some (VObj (patch ∪ u)).
Proof.
  intros Hkeys. unfold fold_paths.
  rewrite <- (list_to_map_to_list patch) at 2. apply fold_set_top.
  apply Forall_forall. intros [k x] Hin. apply elem_of_map_to_list in Hin.
  apply Hkeys. by exists x.
Qed.

Lemma conflict_free_singletons (ks : list string) :
  NoDup ks → conflict_free ((fun k => [k]) <$> ks) = true.
Proof.
  induction 1 as [|k ks Hk Hnd IH]; [done|].
  cbn [fmap list_fmap conflict_free]. rewrite IH, andb_true_r.
  apply forallb_forall. intros q Hq. apply list_elem_of_In in Hq.
  apply list_elem_of_fmap in Hq as (k' & -> & Hk').
  cbn. rewrite !andb_true_r.
  assert (k ≠ k') by (intros ->; done).
  by rewrite !bool_decide_eq_false_2 by done.
Qed.

Lemma conflict_free_repeated (ps : list path) p :
  p ∈ ps → conflict_free (ps ++ [p]) = false.
Proof.
  assert (∀ q, is_prefix q q = true) as Hrefl.
  { induction q as [|a q IH]; [done|]. cbn. by rewrite bool_decide_eq_true_2, IH. }
  induction ps as [|q ps IH]; intros Hin; [by apply elem_of_nil in Hin|].
  cbn [app conflict_free]. apply elem_of_cons in Hin as [->|Hin].
  - apply andb_false_iff. left. apply not_true_iff_false.
    rewrite forallb_forall. intros Hall.
    specialize (Hall q). rewrite Hrefl in Hall. cbn in Hall.
    assert (false = true) as [=]. apply Hall, in_or_app. right. by left.
  - rewrite IH by done. apply andb_false_r.
Qed.

Lemma patch_paths (patch : obj) :
  update_paths (patch_update patch)
  = ((split_dots <$> (map_to_list patch).*1) ++ [["dateUpdated"]])%list.
Proof.
  unfold update_paths, patch_update, currentDate_dateUpdated.
  cbn [upd_set upd_unset upd_currentDate upd_push].
  by rewrite map_to_list_empty, map_to_list_singleton.
Qed.

Lemma split_valid_keys (ks : list string) :
  Forall (fun k => valid_key k = true) ks →
  split_dots <$> ks = (fun k => [k]) <$> ks.
Proof.
  induction 1 as [|k ks Hk _ IH]; [done|]. cbn [fmap list_fmap].
  f_equal; [|done]. by apply split_dots_dotfree, valid_key_dotfree.
Qed.

Lemma valid_singletons (ks : list string) :
  Forall (fun k => valid_key k = true) ks →
  valid_paths ((fun k => [k]) <$> ks) = true.
Proof.
  induction 1 as [|k ks Hk _ IH]; [done|]. unfold valid_paths in *.
  cbn [fmap list_fmap forallb]. fold (fmap (M:=list) (fun k : string => [k]) ks).
  rewrite IH. by rewrite (valid_key_nonempty k Hk).
Qed.

Lemma apply_patch now (patch u : obj) :
  (∀ k, is_Some (patch !! k) → valid_key k = true) →
  patch !! "dateUpdated" = None →
  patch !! "_id" = None →
  apply_update now (patch_update patch) u
  = Some (<["dateUpdated" := VDate now]> (patch ∪ u)).
Proof.
  intros Hkeys Hdate Hid. unfold apply_update. rewrite patch_paths.
  assert (Forall (fun kx : string * value => valid_key kx.1 = true) (map_to_list patch))
    as Hall.
  { apply Forall_forall. intros [k x] Hin. apply elem_of_map_to_list in Hin.
    apply Hkeys. by exists x. }
  assert (Forall (fun k => valid_key k = true)
            ((map_to_list patch).*1 ++ ["dateUpdated"])%list) as Hkeys'.
  { apply Forall_app. split; [by apply Forall_fmap|]. by repeat constructor. }
  change [["dateUpdated"]] with (split_dots <$> ["dateUpdated"]).
  rewrite <- fmap_app, (split_valid_keys _ Hkeys').
  rewrite (valid_singletons _ Hkeys'), conflict_free_singletons.
  2:{ apply NoDup_app. split_and!.
      - apply NoDup_fst_map_to_list.
      - intros k Hk Hin. apply list_elem_of_singleton in Hin. subst k.
        apply list_elem_of_fmap in Hk as ([k x] & Heq & Hin).
        apply elem_of_map_to_list in Hin. cbn in Heq. congruence.
      - apply NoDup_singleton. }
  cbn [andb]. unfold patch_update.
  cbn [upd_set upd_unset upd_currentDate upd_push].
  rewrite (fold_set_patch _ u Hkeys).
  cbn [mbind option_bind].
  unfold fold_paths, currentDate_dateUpdated.
  rewrite map_to_list_empty, map_to_list_singleton.
  cbn [foldr fst snd mbind option_bind].
  rewrite split_dots_dotfree by reflexivity. rewrite set_top.
  cbn [mbind option_bind].
  rewrite decide_True; [done|].
  by rewrite lookup_insert_ne, lookup_union_r by done.
Qed.

Lemma updateUser_patch userId patch :
  updateUser userId patch
  = AwaitReady (Store Users (UpdateOne (by_id userId) (patch_update patch))
      (fun result => try (getprop result "result") (fun r => try (getprop r "ok") Ret))).
Proof. reflexivity. Qed.

(** X11.  For a stored user and a patch that is not empty, whose field
    names are top-level names (not empty, no ['.']) other than [_id] and
    [dateUpdated],
    [updateUser] resolves to [1]; afterwards every field of the patch has
    the patch's value, [dateUpdated] is the store's clock, every other
    field is as before, and [fetchUserById] returns that record. *)
Theorem updateUser_overrides_fields m userId (patch : obj) i u :
  is_ready m →
  findOne (by_id userId) (users_coll m) = Some (i, u) →
  patch ≠ ∅ →
  (∀ k, is_Some (patch !! k) → valid_key k = true) →
  patch !! "dateUpdated" = None →
  patch !! "_id" = None →
  ∃ m' u',
    run (updateUser userId patch) m = (Resolved (VNum 1), m')
    ∧ users_coll m' = <[i:=u']> (users_coll m)
    ∧ (run (fetchUserById userId) m').1 = Resolved (VObj u')
    ∧ (∀ k x, patch !! k = Some x → u' !! k = Some x)
    ∧ u' !! "dateUpdated" = Some (VDate (now (wld m)))
    ∧ (∀ k, patch !! k = None → k ≠ "dateUpdated" → u' !! k = u !! k).
Proof.
  intros (Hi & Hu & Hc) Hfind _ Hkeys Hdate Hid.
  rewrite updateUser_patch, run_ready by done.
  rewrite (run_store _ _ _ _ (userTableName (drv m))) by done.
  cbn [passed wld]. fold (users_coll m).
  erewrite perform_updateOne; [|exact Hfind|by apply apply_patch].
  eexists _, _. split; [reflexivity|].
  assert (users_coll (sent Users (UpdateOne (by_id userId) (patch_update patch))
            (set_collection (userTableName (drv m))
               (<[i:=<["dateUpdated" := VDate (now (wld m))]> (patch ∪ u)]>
                  (users_coll m)) (tick (wld m))) (passed m))
          = <[i:=<["dateUpdated" := VDate (now (wld m))]> (patch ∪ u)]> (users_coll m))
    as Hcoll.
  { unfold users_coll at 1; cbn. by rewrite collection_set. }
  split_and!.
  - exact Hcoll.
  - eapply fetch_updated_user; [|exact Hfind|exact Hcoll|]; [done|].
    by rewrite lookup_insert_ne, lookup_union_r by done.
  - intros k x Hk. rewrite lookup_insert_ne by congruence.
    by erewrite lookup_union_Some_l.
  - by rewrite lookup_insert_eq.
  - intros k Hk Hne. by rewrite lookup_insert_ne, lookup_union_r by done.
Qed.

Lemma updateUser_overrides_fields_witness :
  is_ready Fixture.driver
  ∧ findOne (by_id "mckay") (users_coll Fixture.driver) = Some (1, Fixture.mckay)
  ∧ More.rodney ≠ ∅
  ∧ (∀ k, is_Some (More.rodney !! k) → valid_key k = true)
  ∧ More.rodney !! "dateUpdated" = None
  ∧ More.rodney !! "_id" = None
  ∧ ∃ m' u',
      run (updateUser "mckay" More.rodney) Fixture.driver = (Resolved (VNum 1), m')
      ∧ (run (fetchUserById "mckay") m').1 = Resolved (VObj u')
      ∧ u' !! "name" = Some (VStr "Rodney McKay")
      ∧ u' !! "emails" = Fixture.mckay !! "emails".
Proof.
  assert (is_ready Fixture.driver) as Hr by (repeat split; by_vm).
  assert (findOne (by_id "mckay") (users_coll Fixture.driver) = Some (1, Fixture.mckay))
    as Hfind by by_vm.
  assert (∀ k, is_Some (More.rodney !! k) → valid_key k = true) as Hkeys.
  { intros k [x Hx]. unfold More.rodney in Hx.
    apply lookup_singleton_Some in Hx as [<- _]. reflexivity. }
  assert (More.rodney !! "dateUpdated" = None) as Hd by by_vm.
  assert (More.rodney !! "_id" = None) as Hi by by_vm.
  assert (More.rodney !! "name" = Some (VStr "Rodney McKay")) as Hname by by_vm.
  assert (More.rodney !! "emails" = None) as Hemails by by_vm.
  assert ("emails" ≠ "dateUpdated") as Hne by discriminate.
  assert (More.rodney ≠ ∅) as Hfull.
  { intros Heq. apply (f_equal (lookup "name")) in Heq. discriminate Heq. }
  destruct (updateUser_overrides_fields Fixture.driver "mckay" More.rodney 1
              Fixture.mckay Hr Hfind Hfull Hkeys Hd Hi)
    as (m' & u' & Hrun & _ & Hfetch & Hset & _ & Hkeep).
  refine (conj Hr (conj Hfind (conj Hfull (conj Hkeys (conj Hd (conj Hi _)))))).
  exists m', u'.
  exact (conj Hrun (conj Hfetch
    (conj (Hset "name" _ Hname) (Hkeep "emails" Hemails Hne)))).
Defined.

(** X12.  [updateUser] with a patch that has a [dateUpdated] field (a
    record fetched earlier, say) is rejected by the store: the patch and
    [$currentDate] name the same path.  The stored user is unchanged. *)
Theorem updateUser_with_dateUpdated_rejected m userId (patch : obj) i u :
  is_ready m →
  findOne (by_id userId) (users_coll m) = Some (i, u) →
  is_Some (patch !! "dateUpdated") →
  ∃ e m',
    run (updateUser userId patch) m = (Rejected (MongoError e), m')
    ∧ users_coll m' = users_coll m.
Proof.
  intros (Hi & Hu & Hc) Hfind [x Hx].
  rewrite updateUser_patch, run_ready by done.
  rewrite (run_store _ _ _ _ (userTableName (drv m))) by done.
  cbn [passed wld perform]. fold (users_coll m). rewrite Hfind.
  assert (apply_update (now (wld m)) (patch_update patch) u = None) as ->.
  { unfold apply_update. rewrite patch_paths.
    rewrite (conflict_free_repeated _ ["dateUpdated"]), andb_false_r; [done|].
    apply list_elem_of_fmap. exists "dateUpdated". split; [done|].
    apply list_elem_of_fmap. exists ("dateUpdated", x). split; [done|].
    by apply elem_of_map_to_list. }
  by eexists _, _.
Qed.

Lemma updateUser_with_dateUpdated_rejected_witness :
  is_ready Fixture.driver
  ∧ findOne (by_id "weir") (users_coll Fixture.driver) = Some (2, Fixture.weir)
  ∧ is_Some (Fixture.weir !! "dateUpdated")
  ∧ ∃ e m',
      run (updateUser "weir" Fixture.weir) Fixture.driver
        = (Rejected (MongoError e), m')
      ∧ users_coll m' = users_coll Fixture.driver.
Proof.
  assert (is_ready Fixture.driver) as Hr by (repeat split; by_vm).
  assert (findOne (by_id "weir") (users_coll Fixture.driver) = Some (2, Fixture.weir))
    as Hfind by by_vm.
  assert (is_Some (Fixture.weir !! "dateUpdated")) as Hd
    by (exists (VDate 1000); by_vm).
  exact (conj Hr (conj Hfind (conj Hd
    (updateUser_with_dateUpdated_rejected Fixture.driver "weir" Fixture.weir 2
       Fixture.weir Hr Hfind Hd)))).
Defined.

(** ** The branches of [assertUserEmailData] *)

Lemma find_email_none email es k :
  no_entry email es → find_email email es k = inr None.
Proof.
  intros Hno. revert k. induction Hno as [|w es (r & -> & Hr) _ IH]; intros k; [done|].
  cbn [find_email getprop]. rewrite decide_False; [apply IH|].
  unfold prop. destruct (r !! "value") as [x|] eqn:Hx; cbn; [|done].
  intros ->. done.
Qed.

Lemma apply_push_email now (entry u : obj) es :
  u !! "emails" = Some (VArr es) →
  apply_update now (push_email entry) u
  = Some (<["dateUpdated" := VDate now]>
            (<["emails" := VArr (es ++ [VObj entry])]> u)).
Proof.
  intros Hemails. unfold apply_update.
  replace (update_paths _) with [["dateUpdated"]; ["emails"]].
  2:{ unfold update_paths, push_email, currentDate_dateUpdated;
      cbn [upd_set upd_unset upd_currentDate upd_push].
      by rewrite !map_to_list_singleton, map_to_list_empty. }
  replace (valid_paths _ && conflict_free _) with true by (vm_compute; reflexivity).
  unfold push_email, fold_paths; cbn [upd_set upd_unset upd_currentDate upd_push].
  unfold currentDate_dateUpdated.
  rewrite !map_to_list_singleton, map_to_list_empty.
  cbn [foldr fst snd mbind option_bind].
  rewrite !split_dots_dotfree by reflexivity. rewrite set_top.
  cbn [mbind option_bind push_path].
  rewrite lookup_insert_ne, Hemails by done. cbn [mbind option_bind].
  rewrite decide_True by (by rewrite !lookup_insert_ne by done).
  f_equal. apply map_eq. intros k.
  destruct (decide (k = "emails")) as [->|]; [by rewrite lookup_insert_eq,
    lookup_insert_ne, lookup_insert_eq by done|].
  destruct (decide (k = "dateUpdated")) as [->|].
  - by rewrite lookup_insert_ne, !lookup_insert_eq by done.
  - by rewrite !lookup_insert_ne by done.
Qed.

(** The store refuses a [$set] at ['emails.-1'] on a user whose [emails]
    is an array. *)
Lemma apply_set_email_before_first now (entry u : obj) es :
  u !! "emails" = Some (VArr es) →
  apply_update now (set_email (-1) entry) u = None.
Proof.
  intros Hemails. unfold apply_update.
  replace (update_paths _) with [["emails"; "-1"]; ["dateUpdated"]].
  2:{ unfold update_paths, set_email, currentDate_dateUpdated;
      cbn [upd_set upd_unset upd_currentDate upd_push].
      by rewrite !map_to_list_singleton, map_to_list_empty. }
  replace (valid_paths _ && conflict_free _) with true by (vm_compute; reflexivity).
  unfold set_email, fold_paths; cbn [upd_set upd_unset upd_currentDate upd_push].
  rewrite map_to_list_singleton. cbn [foldr fst snd mbind option_bind].
  replace (split_dots _) with ["emails"; "-1"] by reflexivity.
  cbn [set_path]. rewrite Hemails. cbn [default from_option id set_path].
  by replace (is_index "-1") with (@None nat) by reflexivity.
Qed.

(** X13.  For a stored user whose [emails] array has no entry for the
    address, [assertUserEmailData(id, email)] without [data] sends one
    update that appends [{ value: email }] at the end of [emails]; the
    earlier entries and the other fields are unchanged, [dateUpdated] is
    the store's clock, and the user now has the address. *)
Theorem assertUserEmailData_appends m userId email p u es :
  is_ready m →
  findOne (by_id userId) (users_coll m) = Some (p, u) →
  u !! "emails" = Some (VArr es) →
  no_entry email es →
  ∃ m' u',
    run (assertUserEmailData userId email None) m = (Resolved VUndefined, m')
    ∧ log m' = (log m ++
        [EvStore Users (FindOne (by_id userId));
         EvStore Users (UpdateOne (by_id userId)
                          (push_email {[ "value" := VStr email ]}))])%list
    ∧ users_coll m' = <[p:=u']> (users_coll m)
    ∧ (run (fetchUserById userId) m').1 = Resolved (VObj u')
    ∧ u' !! "emails" = Some (VArr (es ++ [VObj {[ "value" := VStr email ]}]))
    ∧ has_email email u' = true
    ∧ u' !! "dateUpdated" = Some (VDate (now (wld m)))
    ∧ ∀ k, k ≠ "emails" → k ≠ "dateUpdated" → u' !! k = u !! k.
Proof.
  intros (Hi & Hu & Hc) Hfind Hemails Hno.
  unfold assertUserEmailData.
  rewrite run_ready by done.
  rewrite (run_store _ _ _ _ (userTableName (drv m))) by done.
  rewrite perform_findOne.
  cbn [sent with_log with_world wld drv log passed].
  fold (users_coll m). rewrite Hfind.
  cbn [try getprop]. unfold prop. rewrite Hemails. cbn [default from_option id].
  rewrite (find_email_none email es 0 Hno).
  cbn [from_option truthy negb].
  rewrite bool_decide_eq_false_2 by (by intros [? [=]]).
  unfold new_email_entry. cbn [spread default from_option id].
  rewrite (left_id_L ∅ (∪)).
  set (m1 := sent _ _ _ _).
  destruct (run_update_user m1 userId (push_email {[ "value" := VStr email ]}) p u _
              Hu Hfind (apply_push_email _ _ u es Hemails))
    as (m' & Hrun & Hdrv & Hlog & Hcoll).
  eexists m', _. split_and!; [exact Hrun| |exact Hcoll| | | | |].
  - rewrite Hlog. subst m1. cbn [log sent with_log with_world passed].
    by rewrite <- app_assoc.
  - eapply fetch_updated_user; [|exact Hfind|exact Hcoll|].
    + unfold is_ready. by rewrite Hdrv.
    + by rewrite !lookup_insert_ne by done.
  - by rewrite lookup_insert_ne, lookup_insert_eq by done.
  - unfold has_email. rewrite lookup_insert_ne, lookup_insert_eq by done.
    rewrite existsb_app. cbn. rewrite lookup_singleton_eq.
    rewrite bool_decide_eq_true_2 by done. by rewrite orb_true_r.
  - by rewrite lookup_insert_eq.
  - intros k ??. by rewrite !lookup_insert_ne by done.
Qed.

Lemma mckay_has_no_sgc : no_entry "mckay@sgc.mil" More.mckay_emails.
Proof.
  repeat constructor. eexists. split; [reflexivity|].
  rewrite lookup_singleton_eq. discriminate.
Qed.

Lemma assertUserEmailData_appends_witness :
  is_ready Fixture.driver
  ∧ findOne (by_id "mckay") (users_coll Fixture.driver) = Some (1, Fixture.mckay)
  ∧ Fixture.mckay !! "emails" = Some (VArr More.mckay_emails)
  ∧ no_entry "mckay@sgc.mil" More.mckay_emails
  ∧ ∃ m' u',
      run (assertUserEmailData "mckay" "mckay@sgc.mil" None) Fixture.driver
        = (Resolved VUndefined, m')
      ∧ (run (fetchUserById "mckay") m').1 = Resolved (VObj u')
      ∧ u' !! "emails"
        = Some (VArr (More.mckay_emails
                      ++ [VObj {[ "value" := VStr "mckay@sgc.mil" ]}]))
      ∧ has_email "mckay@sgc.mil" u' = true.
Proof.
  assert (is_ready Fixture.driver) as Hr by (repeat split; by_vm).
  assert (findOne (by_id "mckay") (users_coll Fixture.driver) = Some (1, Fixture.mckay))
    as Hfind by by_vm.
  assert (Fixture.mckay !! "emails" = Some (VArr More.mckay_emails)) as He by by_vm.
  destruct (assertUserEmailData_appends Fixture.driver "mckay" "mckay@sgc.mil" 1
              Fixture.mckay More.mckay_emails Hr Hfind He mckay_has_no_sgc)
    as (m' & u' & Hrun & _ & _ & Hfetch & Hemails & Hhas & _).
  refine (conj Hr (conj Hfind (conj He (conj mckay_has_no_sgc _)))).
  exists m', u'. exact (conj Hrun (conj Hfetch (conj Hemails Hhas))).
Defined.

(** X14.  For a stored user whose [emails] array has no entry for the
    address, [assertUserEmailData(id, email, data)] with [data] runs both
    branches: it appends [{ value: email, ...data }], and then sends a
    second update that sets [{ ...data }] at ['emails.-1'], the position
    [indexOf] gave for the entry it had not found.  The store refuses
    that update, so the call rejects although the entry was appended. *)
Theorem assertUserEmailData_new_entry_with_data_rejected
    m userId email (data : obj) p u es :
  is_ready m →
  findOne (by_id userId) (users_coll m) = Some (p, u) →
  u !! "emails" = Some (VArr es) →
  no_entry email es →
  ∃ e m' u',
    run (assertUserEmailData userId email (Some data)) m
      = (Rejected (MongoError e), m')
    ∧ log m' = (log m ++
        [EvStore Users (FindOne (by_id userId));
         EvStore Users (UpdateOne (by_id userId)
                          (push_email (data ∪ {[ "value" := VStr email ]})));
         EvStore Users (UpdateOne (by_id userId) (set_email (-1) data))])%list
    ∧ users_coll m' = <[p:=u']> (users_coll m)
    ∧ u' !! "emails"
      = Some (VArr (es ++ [VObj (data ∪ {[ "value" := VStr email ]})])).
Proof.
  intros (Hi & Hu & Hc) Hfind Hemails Hno.
  unfold assertUserEmailData.
  rewrite run_ready by done.
  rewrite (run_store _ _ _ _ (userTableName (drv m))) by done.
  rewrite perform_findOne.
  cbn [sent with_log with_world wld drv log passed].
  fold (users_coll m). rewrite Hfind.
  cbn [try getprop]. unfold prop. rewrite Hemails. cbn [default from_option id].
  rewrite (find_email_none email es 0 Hno).
  cbn [from_option truthy negb].
  rewrite bool_decide_eq_true_2 by eauto.
  unfold new_email_entry, merged_email_entry.
  cbn [spread spread_value default from_option id].
  rewrite (right_id_L ∅ (∪)).
  set (m1 := sent _ _ _ _).
  rewrite (run_store _ _ _ _ (userTableName (drv m))) by done.
  erewrite perform_updateOne;
    [|exact Hfind|by apply (apply_push_email _ _ u es Hemails)].
  set (u1 := <["dateUpdated" := _]> _).
  set (m2 := sent _ _ _ m1).
  assert (users_coll m2 = <[p:=u1]> (users_coll m)) as Hcoll.
  { unfold users_coll at 1; cbn. by rewrite collection_set. }
  assert (findOne (by_id userId) (users_coll m2) = Some (p, u1)) as Hfind2.
  { rewrite Hcoll. eapply findOne_by_id_insert; [done|].
    unfold u1. by rewrite !lookup_insert_ne by done. }
  rewrite (run_store _ _ _ _ (userTableName (drv m))) by done.
  cbn [perform]. change (collection (wld m2) _) with (users_coll m2).
  rewrite Hfind2.
  rewrite (apply_set_email_before_first _ data u1
             (es ++ [VObj (data ∪ {[ "value" := VStr email ]})])).
  2:{ unfold u1. by rewrite lookup_insert_ne, lookup_insert_eq by done. }
  eexists _, _, u1. split; [reflexivity|]. split_and!.
  - subst m2 m1. cbn [log sent with_log with_world passed].
    by rewrite <- !app_assoc.
  - done.
  - unfold u1. by rewrite lookup_insert_ne, lookup_insert_eq by done.
Qed.

Lemma assertUserEmailData_new_entry_with_data_rejected_witness :
  is_ready Fixture.driver
  ∧ findOne (by_id "mckay") (users_coll Fixture.driver) = Some (1, Fixture.mckay)
  ∧ Fixture.mckay !! "emails" = Some (VArr More.mckay_emails)
  ∧ no_entry "mckay@sgc.mil" More.mckay_emails
  ∧ ∃ e m' u',
      run (assertUserEmailData "mckay" "mckay@sgc.mil" (Some Fixture.verified))
          Fixture.driver = (Rejected (MongoError e), m')
      ∧ log m' = (log Fixture.driver ++
          [EvStore Users (FindOne (by_id "mckay"));
           EvStore Users (UpdateOne (by_id "mckay")
              (push_email (Fixture.verified ∪ {[ "value" := VStr "mckay@sgc.mil" ]})));
           EvStore Users (UpdateOne (by_id "mckay")
              (set_email (-1) Fixture.verified))])%list
      ∧ users_coll m' = <[1:=u']> (users_coll Fixture.driver)
      ∧ u' !! "emails"
        = Some (VArr (More.mckay_emails
                      ++ [VObj (Fixture.verified
                                ∪ {[ "value" := VStr "mckay@sgc.mil" ]})])).
Proof.
  assert (is_ready Fixture.driver) as Hr by (repeat split; by_vm).
  assert (findOne (by_id "mckay") (users_coll Fixture.driver) = Some (1, Fixture.mckay))
    as Hfind by by_vm.
  assert (Fixture.mckay !! "emails" = Some (VArr More.mckay_emails)) as He by by_vm.
  exact (conj Hr (conj Hfind (conj He (conj mckay_has_no_sgc
    (assertUserEmailData_new_entry_with_data_rejected Fixture.driver "mckay"
       "mckay@sgc.mil" Fixture.verified 1 Fixture.mckay More.mckay_emails
       Hr Hfind He mckay_has_no_sgc))))).
Defined.

(** X15.  For a stored user who already has an entry for the address,
    [assertUserEmailData(id, email)] without [data] sends nothing after
    its [findOne]: the database is unchanged, [dateUpdated] included. *)
Theorem assertUserEmailData_present_without_data m userId email p u es i (e : obj) :
  is_ready m →
  findOne (by_id userId) (users_coll m) = Some (p, u) →
  u !! "emails" = Some (VArr es) →
  es !! i = Some (VObj e) →
  e !! "value" = Some (VStr email) →
  (∀ j w, j < i → es !! j = Some w →
     ∃ r, w = VObj r ∧ r !! "value" ≠ Some (VStr email)) →
  ∃ m',
    run (assertUserEmailData userId email None) m = (Resolved VUndefined, m')
    ∧ wld m' = wld m
    ∧ log m' = (log m ++ [EvStore Users (FindOne (by_id userId))])%list.
Proof.
  intros (Hi & Hu & Hc) Hfind Hemails Hentry Hvalue Hbefore.
  unfold assertUserEmailData.
  rewrite run_ready by done.
  rewrite (run_store _ _ _ _ (userTableName (drv m))) by done.
  rewrite perform_findOne.
  cbn [sent with_log with_world wld drv log passed].
  fold (users_coll m). rewrite Hfind.
  cbn [try getprop]. unfold prop. rewrite Hemails. cbn [default from_option id].
  rewrite (find_email_first email es 0 i e) by done.
  cbn [from_option snd fst truthy negb Nat.add].
  rewrite bool_decide_eq_false_2 by (by intros [? [=]]).
  cbn [run]. by eexists.
Qed.

Lemma assertUserEmailData_present_without_data_witness :
  is_ready Fixture.driver
  ∧ findOne (by_id "weir") (users_coll Fixture.driver) = Some (2, Fixture.weir)
  ∧ Fixture.weir !! "emails" = Some (VArr [VObj Fixture.weir_email])
  ∧ Fixture.weir_email !! "value" = Some (VStr "weir@atlantis.net")
  ∧ ∃ m',
      run (assertUserEmailData "weir" "weir@atlantis.net" None) Fixture.driver
        = (Resolved VUndefined, m')
      ∧ wld m' = wld Fixture.driver
      ∧ log m' = (log Fixture.driver
                  ++ [EvStore Users (FindOne (by_id "weir"))])%list.
Proof.
  assert (is_ready Fixture.driver) as Hr by (repeat split; by_vm).
  assert (findOne (by_id "weir") (users_coll Fixture.driver) = Some (2, Fixture.weir))
    as Hfind by by_vm.
  assert (Fixture.weir !! "emails" = Some (VArr [VObj Fixture.weir_email]))
    as Hemails by by_vm.
  assert (Fixture.weir_email !! "value" = Some (VStr "weir@atlantis.net"))
    as Hvalue by by_vm.
  assert (∀ j w, j < 0 → [VObj Fixture.weir_email] !! j = Some w →
            ∃ r : obj, w = VObj r ∧ r !! "value" ≠ Some (VStr "weir@atlantis.net"))
    as Hbefore by (intros j w Hj; lia).
  exact (conj Hr (conj Hfind (conj Hemails (conj Hvalue
    (assertUserEmailData_present_without_data Fixture.driver "weir"
       "weir@atlantis.net" 2 Fixture.weir [VObj Fixture.weir_email] 0
       Fixture.weir_email Hr Hfind Hemails eq_refl Hvalue Hbefore))))).
Defined.

(** ** The configuration store, row by row *)

Section ConfigRows.

Variable dateToString : Z → string.


End ConfigRows.



(** X17.  [setConfigKey] is an insert keyed by [_id] alone.  For a
    [value] without an [_id] field of its own: when a stored row already
    has this [_id], under whatever [type], the call is rejected and the
    collection is unchanged; otherwise it resolves and the row
    [{ type, _id, ...value }] is appended. *)
Theorem setConfigKey_is_insert_by_id m type _id (value : obj) :
  is_ready m →
  value !! "_id" = None →
  (existsb (fun e => bool_decide (e !! "_id" = Some (VStr _id))) (config_coll m) = true →
     ∃ e m', run (setConfigKey type _id value) m = (Rejected (MongoError e), m')
             ∧ config_coll m' = config_coll m)
  ∧ (existsb (fun e => bool_decide (e !! "_id" = Some (VStr _id))) (config_coll m)
       = false →
     ∃ m', run (setConfigKey type _id value) m = (Resolved VUndefined, m')
           ∧ config_coll m' = (config_coll m ++ [config_row type _id value])%list).
Proof.
  intros (Hi & Hu & Hc) Hid.
  assert (config_row type _id value !! "_id" = Some (VStr _id)) as Hkey.
  { unfold config_row. by rewrite lookup_union_r, lookup_insert_eq. }
  unfold setConfigKey. rewrite run_ready by done.
  rewrite (run_store _ _ _ _ (configTableName (drv m))) by done.
  cbn [perform passed wld]. rewrite Hkey. fold (config_coll m).
  split; intros ->.
  - by eexists _, _.
  - cbn [run]. eexists. split; [reflexivity|].
    unfold config_coll at 1; cbn. by rewrite collection_set.
Qed.

Lemma setConfigKey_is_insert_by_id_witness :
  is_ready More.configured
  ∧ More.client !! "_id" = None
  ∧ (∃ e m', run (setConfigKey "strategy" "facebook" More.client) More.configured
             = (Rejected (MongoError e), m')
             ∧ config_coll m' = config_coll More.configured)
  ∧ (∃ m', run (setConfigKey "service" "google" More.client) More.configured
           = (Resolved VUndefined, m')
           ∧ config_coll m'
             = (config_coll More.configured
                ++ [config_row "service" "google" More.client])%list).
Proof.
  assert (is_ready More.configured) as Hr by (repeat split; by_vm).
  assert (More.client !! "_id" = None) as Hid by by_vm.
  assert (existsb (fun e => bool_decide (e !! "_id" = Some (VStr "facebook")))
            (config_coll More.configured) = true) as Htaken by by_vm.
  assert (existsb (fun e => bool_decide (e !! "_id" = Some (VStr "google")))
            (config_coll More.configured) = false) as Hfree by by_vm.
  destruct (setConfigKey_is_insert_by_id More.configured "strategy" "facebook"
              More.client Hr Hid) as [Hdup _].
  destruct (setConfigKey_is_insert_by_id More.configured "service" "google"
              More.client Hr Hid) as [_ Hnew].
  exact (conj Hr (conj Hid (conj (Hdup Htaken) (Hnew Hfree)))).
Defined.

(** ** What [addResetPasswordToken] leaves alone *)

(** X18.  For a stored user, [addResetPasswordToken] with the default
    field names changes no field of the user other than [resetPassToken],
    [resetPassTokenExpiration], [verificationToken],
    [tokenExpirationField] and [dateUpdated], and changes no other stored
    user. *)
Theorem addResetPasswordToken_frame m userId token tokenExpiration i u :
  is_ready m →
  findOne (by_id userId) (users_coll m) = Some (i, u) →
  ∃ m' u',
    run (addResetPasswordToken userId token tokenExpiration None None) m
      = (Resolved VUndefined, m')
    ∧ users_coll m' !! i = Some u'
    ∧ (∀ k, k ∉ reset_keys → u' !! k = u !! k)
    ∧ (∀ j, j ≠ i → users_coll m' !! j = users_coll m !! j)
    ∧ length (users_coll m') = length (users_coll m).
Proof.
  intros Hr Hfind.
  destruct (run_addResetPasswordToken m userId token tokenExpiration i u Hr Hfind)
    as (m' & Hrun & _ & _ & Hcoll).
  eexists m', _. split; [exact Hrun|]. rewrite Hcoll. split_and!.
  - apply list_lookup_insert_eq. apply list_find_Some in Hfind as (Hi & _).
    by eapply lookup_lt_Some.
  - intros k Hk. unfold reset_keys in Hk. rewrite !not_elem_of_cons in Hk.
    destruct Hk as (?&?&?&?&?&_). unfold reset_doc.
    by rewrite lookup_insert_ne, !lookup_delete_ne, !lookup_insert_ne by done.
  - intros j Hj. by rewrite list_lookup_insert_ne.
  - by rewrite length_insert.
Qed.

Lemma addResetPasswordToken_frame_witness :
  is_ready Fixture.driver
  ∧ findOne (by_id "weir") (users_coll Fixture.driver) = Some (2, Fixture.weir)
  ∧ ∃ m' u',
      run (addResetPasswordToken "weir" (VStr "tok") (VDate 5000) None None)
          Fixture.driver = (Resolved VUndefined, m')
      ∧ users_coll m' !! 2 = Some u'
      ∧ u' !! "emails" = Fixture.weir !! "emails"
      ∧ u' !! "services" = Fixture.weir !! "services"
      ∧ users_coll m' !! 0 = users_coll Fixture.driver !! 0.
Proof.
  assert (is_ready Fixture.driver) as Hr by (repeat split; by_vm).
  assert (findOne (by_id "weir") (users_coll Fixture.driver) = Some (2, Fixture.weir))
    as Hfind by by_vm.
  assert ("emails" ∉ reset_keys) as Hemails
    by (apply (bool_decide_eq_false_1 ("emails" ∈ reset_keys)); by_vm).
  assert ("services" ∉ reset_keys) as Hservices
    by (apply (bool_decide_eq_false_1 ("services" ∈ reset_keys)); by_vm).
  assert (0 ≠ 2) as Hne by discriminate.
  destruct (addResetPasswordToken_frame Fixture.driver "weir" (VStr "tok") (VDate 5000)
              2 Fixture.weir Hr Hfind) as (m' & u' & Hrun & Hi & Hkeep & Hother & _).
  refine (conj Hr (conj Hfind _)). exists m', u'.
  exact (conj Hrun (conj Hi (conj (Hkeep _ Hemails)
           (conj (Hkeep _ Hservices) (Hother 0 Hne))))).
Defined.
